(** * Language-server protocol engine of liblsp: data model, capability
      hooks, lifecycle, dispatch and document store.

    Sources embedded here:
    - [src/liblsp/Server.h]                 (class [lsp::Server])
    - [src/libsolidity/lsp/LanguageServer.h] (class [solidity::lsp::LanguageServer])

    Both files are headers.  What they define inline (helper types, the
    default bodies of the virtual capability hooks, the [trace()] accessor,
    the default member initialisers, the two inline [findAllReferences]
    wrappers) is translated from the code.  Member functions that are only
    declared there are modelled from the specification and marked so. *)

From Stdlib Require Import ZArith List Bool Lia Ascii.
From Stdlib Require String.
From stdpp Require Import base option list strings gmap fin_maps.

Set Warnings "-register-all".

(* ===================================================================== *)
(** * 1. Helper types (Server.h, lines 39-104)                            *)
(* ===================================================================== *)

(** [enum class Trace { Off, Messages, Verbose }] *)
Inductive Trace := Off | Messages | Verbose.

(** [solidity::util::URI] (libsolutil/URI.h is not part of the sources at
    hand): a URI is identified by its text. *)
Abbreviation URI := string (only parsing).

(** Modelled from the spec: [Position] and [Range] of liblsp/Range.h, which
    is missing.  "Position: (line, character) - zero-based"; "Range: ordered
    pair of Position". *)
Record Position := { line : nat; character : nat }.
Record Range := { range_start : Position; range_end : Position }.

Record WorkspaceFolder := { wf_name : string; wf_uri : URI }.
Record DocumentPosition := { dp_uri : URI; dp_position : Position }.
Record ServerId := { serverName : string; serverVersion : string }.

Inductive DocumentHighlightKind := Unspecified | Text | Read | Write.

Record Location := { loc_uri : URI; loc_range : Range }.

(** [kind] is default-initialised to [Unspecified] in the struct. *)
Record DocumentHighlight :=
  { dh_range : Range; dh_kind : DocumentHighlightKind }.

Inductive DiagnosticSeverity := Error | Warning | Information | Hint.
Inductive DiagnosticTag := Unnecessary | Deprecated.

Record DiagnosticRelatedInformation :=
  { dri_location : Location; dri_message : string }.

Record Diagnostic := {
  diag_range : Range;
  diag_severity : option DiagnosticSeverity;
  diag_code : option N;
  diag_source : option string;
  diag_message : string;
  diag_diagnosticTag : list DiagnosticTag;
  diag_relatedInformation : list DiagnosticRelatedInformation
}.

(** Modelled from the spec: [MessageId] of liblsp/Transport.h, which is
    missing.  "tagged union of {integer, string, absent}. ... notifications
    carry no id." *)
Inductive MessageId := IdInt (n : Z) | IdString (s : string) | IdAbsent.

Definition isRequest (id : MessageId) : bool :=
  match id with IdAbsent => false | _ => true end.

(** Modelled from the spec: [enum class ErrorCode] is only forward-declared
    in Server.h.  Section 6: "ParseError, InvalidRequest, MethodNotFound,
    InvalidParams, InternalError, ServerNotInitialized, InvalidRange
    (domain-specific), RequestFailed." *)
Inductive ErrorCode :=
| ParseError | InvalidRequest | MethodNotFound | InvalidParams
| InternalError | ServerNotInitialized | InvalidRange | RequestFailed.

(** [Json::Value]; the spec's GenericValue: "a recursive tagged union
    (null/bool/number/string/array/object)". *)
Inductive Json :=
| JNull
| JBool (b : bool)
| JNumber (n : Z)
| JString (s : string)
| JArray (items : list Json)
| JObject (members : list (string * Json)).

#[global] Instance Trace_eq_dec : EqDecision Trace.
Proof. solve_decision. Defined.
#[global] Instance MessageId_eq_dec : EqDecision MessageId.
Proof. solve_decision. Defined.
#[global] Instance ErrorCode_eq_dec : EqDecision ErrorCode.
Proof. solve_decision. Defined.

(** The underlying values of the enumerations, as the header fixes them.
    [enum class Trace { Off, Messages, Verbose }] and
    [enum class DocumentHighlightKind { Unspecified, Text, Read, Write }]
    name no value, so the enumerators count from zero;
    [DiagnosticSeverity] has [Error = 1, Warning = 2, Information = 3,
    Hint = 4] and [DiagnosticTag] has [Unnecessary = 1, Deprecated = 2]. *)
Definition Trace_value (t : Trace) : Z :=
  match t with Off => 0 | Messages => 1 | Verbose => 2 end.

Definition DocumentHighlightKind_value (k : DocumentHighlightKind) : Z :=
  match k with Unspecified => 0 | Text => 1 | Read => 2 | Write => 3 end.

Definition DiagnosticSeverity_value (s : DiagnosticSeverity) : Z :=
  match s with Error => 1 | Warning => 2 | Information => 3 | Hint => 4 end.

Definition DiagnosticTag_value (t : DiagnosticTag) : Z :=
  match t with Unnecessary => 1 | Deprecated => 2 end.

(* ===================================================================== *)
(** * 2. Capability hooks (Server.h, lines 139-201)                        *)
(* ===================================================================== *)

(** What a hook may ask the server to send: the public outbound members
    [pushDiagnostics], [log] and [trace(std::string)] of [Server]. *)
Inductive ServerCall :=
| CallPushDiagnostics (uri : URI) (version : option Z) (diags : list Diagnostic)
| CallLog (message : string)
| CallTrace (message : string).

(** A hook either completes with a value or leaves with a typed error. *)
Inductive Result (A : Type) :=
| Ok (a : A)
| Failed (code : ErrorCode) (message : string).
Arguments Ok {A} a.
Arguments Failed {A} code message.

(** A virtual member function of a class whose own state has type [E]: it
    yields its result, the object state after the call and the outbound
    calls it made, in order. *)
Definition Hook (E A : Type) : Type := E -> Result A * E * list ServerCall.

(** The virtual table.  C++ overloads of [documentContentUpdated] are told
    apart by a suffix: [_full] is (uri, version, fullContentChange),
    [_notice] is (uri), [_range] is (uri, version, range, text). *)
Record ServerHooks (E : Type) := {
  initialize : URI -> list WorkspaceFolder -> Hook E ServerId;
  initialized : Hook E unit;
  changeConfiguration : Json -> Hook E unit;
  documentOpened : URI -> string -> Z -> string -> Hook E unit;
  documentContentUpdated_full : URI -> option Z -> string -> Hook E unit;
  documentContentUpdated_notice : URI -> Hook E unit;
  documentContentUpdated_range :
    URI -> option Z -> Range -> string -> Hook E unit;
  documentClosed : URI -> Hook E unit;
  gotoDefinition : DocumentPosition -> Hook E (list Location);
  semanticHighlight : DocumentPosition -> Hook E (list DocumentHighlight);
  references : DocumentPosition -> Hook E (list Location)
}.
Arguments initialize {E}.
Arguments initialized {E}.
Arguments changeConfiguration {E}.
Arguments documentOpened {E}.
Arguments documentContentUpdated_full {E}.
Arguments documentContentUpdated_notice {E}.
Arguments documentContentUpdated_range {E}.
Arguments documentClosed {E}.
Arguments gotoDefinition {E}.
Arguments semanticHighlight {E}.
Arguments references {E}.

Section ServerDefaults.
Context {E : Type}.

(** [virtual void initialized() {}] *)
Definition Server_initialized : Hook E unit :=
  fun e => (Ok tt, e, []).

(** [virtual void changeConfiguration(Json::Value const&) {}] *)
Definition Server_changeConfiguration (_ : Json) : Hook E unit :=
  fun e => (Ok tt, e, []).

(** [virtual void documentOpened(URI const&, std::string, int, std::string) {}] *)
Definition Server_documentOpened
    (_uri : URI) (_languageId : string) (_version : Z) (_contents : string)
  : Hook E unit :=
  fun e => (Ok tt, e, []).

(** [virtual void documentContentUpdated(URI const&, std::optional<int>, std::string const&) {}] *)
Definition Server_documentContentUpdated_full
    (_uri : URI) (_version : option Z) (_fullContentChange : string)
  : Hook E unit :=
  fun e => (Ok tt, e, []).

(** [virtual void documentContentUpdated(URI const&) {}] *)
Definition Server_documentContentUpdated_notice (_uri : URI) : Hook E unit :=
  fun e => (Ok tt, e, []).

(** [virtual void documentContentUpdated(URI const&, std::optional<int>, Range, std::string const&) {}] *)
Definition Server_documentContentUpdated_range
    (_uri : URI) (_version : option Z) (_range : Range) (_text : string)
  : Hook E unit :=
  fun e => (Ok tt, e, []).

(** [virtual void documentClosed(URI const&) {}] *)
Definition Server_documentClosed (_uri : URI) : Hook E unit :=
  fun e => (Ok tt, e, []).

(** [virtual std::vector<Location> gotoDefinition(DocumentPosition) { return {}; }] *)
Definition Server_gotoDefinition (_position : DocumentPosition)
  : Hook E (list Location) :=
  fun e => (Ok [], e, []).

(** [virtual std::vector<DocumentHighlight> semanticHighlight(DocumentPosition) { return {}; }] *)
Definition Server_semanticHighlight (_documentPosition : DocumentPosition)
  : Hook E (list DocumentHighlight) :=
  fun e => (Ok [], e, []).

(** [virtual std::vector<Location> references(DocumentPosition) { return {}; }] *)
Definition Server_references (_documentPosition : DocumentPosition)
  : Hook E (list Location) :=
  fun e => (Ok [], e, []).

(** The virtual table of a class that derives from [Server] and overrides
    nothing but the pure virtual [initialize]. *)
Definition Server_vtable
    (initialize_impl : URI -> list WorkspaceFolder -> Hook E ServerId)
  : ServerHooks E :=
  {| initialize := initialize_impl;
     initialized := Server_initialized;
     changeConfiguration := Server_changeConfiguration;
     documentOpened := Server_documentOpened;
     documentContentUpdated_full := Server_documentContentUpdated_full;
     documentContentUpdated_notice := Server_documentContentUpdated_notice;
     documentContentUpdated_range := Server_documentContentUpdated_range;
     documentClosed := Server_documentClosed;
     gotoDefinition := Server_gotoDefinition;
     semanticHighlight := Server_semanticHighlight;
     references := Server_references |}.
End ServerDefaults.

(** A call of one of the virtual member functions of [Server] (lines
    141-200), with its arguments. *)
Inductive VirtualCall :=
| Call_initialize (_rootUri : URI) (_workspaceFolders : list WorkspaceFolder)
| Call_initialized
| Call_changeConfiguration (cfg : Json)
| Call_documentOpened (_uri : URI) (_languageId : string) (_version : Z)
    (_contents : string)
| Call_documentContentUpdated_full (_uri : URI) (_version : option Z)
    (_fullContentChange : string)
| Call_documentContentUpdated_notice (_uri : URI)
| Call_documentContentUpdated_range (_uri : URI) (_version : option Z)
    (_range : Range) (_text : string)
| Call_documentClosed (_uri : URI)
| Call_gotoDefinition (_position : DocumentPosition)
| Call_semanticHighlight (_documentPosition : DocumentPosition)
| Call_references (_documentPosition : DocumentPosition).

(** What such a call returns: [ServerId], [void], [std::vector<Location>]
    or [std::vector<DocumentHighlight>]. *)
Inductive VirtualResult :=
| GaveServerId (sid : ServerId)
| GaveNothing
| GaveLocations (locations : list Location)
| GaveHighlights (highlights : list DocumentHighlight).

Definition isInitializeCall (c : VirtualCall) : bool :=
  match c with Call_initialize _ _ => true | _ => false end.

(** The value of the return type that [{}] and [return {};] give. *)
Definition emptyResult (c : VirtualCall) : VirtualResult :=
  match c with
  | Call_gotoDefinition _ | Call_references _ => GaveLocations []
  | Call_semanticHighlight _ => GaveHighlights []
  | _ => GaveNothing
  end.

Definition hookAs {E A} (wrap : A -> VirtualResult) (h : Hook E A)
  : Hook E VirtualResult :=
  fun e =>
    match h e with
    | (Ok a, e', calls) => (Ok (wrap a), e', calls)
    | (Failed code message, e', calls) => (Failed code message, e', calls)
    end.

(** The call, dispatched through the virtual table of the object. *)
Definition virtualCall {E} (vt : ServerHooks E) (c : VirtualCall)
  : Hook E VirtualResult :=
  match c with
  | Call_initialize u f => hookAs GaveServerId (initialize vt u f)
  | Call_initialized => hookAs (fun _ => GaveNothing) (initialized vt)
  | Call_changeConfiguration j =>
      hookAs (fun _ => GaveNothing) (changeConfiguration vt j)
  | Call_documentOpened u l v c =>
      hookAs (fun _ => GaveNothing) (documentOpened vt u l v c)
  | Call_documentContentUpdated_full u v t =>
      hookAs (fun _ => GaveNothing) (documentContentUpdated_full vt u v t)
  | Call_documentContentUpdated_notice u =>
      hookAs (fun _ => GaveNothing) (documentContentUpdated_notice vt u)
  | Call_documentContentUpdated_range u v r t =>
      hookAs (fun _ => GaveNothing) (documentContentUpdated_range vt u v r t)
  | Call_documentClosed u => hookAs (fun _ => GaveNothing) (documentClosed vt u)
  | Call_gotoDefinition p => hookAs GaveLocations (gotoDefinition vt p)
  | Call_semanticHighlight p => hookAs GaveHighlights (semanticHighlight vt p)
  | Call_references p => hookAs GaveLocations (references vt p)
  end.

(** Calls made one after the other on the same object: the results in
    order, the object after the last call, and all outbound calls. *)
Fixpoint virtualCalls {E} (vt : ServerHooks E) (cs : list VirtualCall) (e : E)
  : list (Result VirtualResult) * E * list ServerCall :=
  match cs with
  | [] => ([], e, [])
  | c :: rest =>
      let r := virtualCall vt c e in
      let rr := virtualCalls vt rest r.1.2 in
      (r.1.1 :: rr.1.1, rr.1.2, r.2 ++ rr.2)
  end.

(* ===================================================================== *)
(** * 3. [LanguageServer::findAllReferences] (LanguageServer.h, 86-122)    *)
(* ===================================================================== *)

Section FindAllReferences.
(** [frontend::Declaration] and [frontend::SourceUnit] come from
    libsolidity/ast/AST.h; [declName] is [Declaration::name()]. *)
Variables Declaration SourceUnit : Type.
Variable declName : Declaration -> string.

(** A [Declaration const*]: [None] is the null pointer. *)
Definition DeclPtr : Type := option Declaration.

(** Reads through a declaration pointer, in program order. *)
Inductive Access := NameRead (d : Declaration).

(** A computation that dereferences pointers: [None] when it dereferences
    a null pointer, otherwise its value and the reads it made. *)
Definition Deref (A : Type) : Type := option (A * list Access).

Definition dret {A} (a : A) : Deref A := Some (a, []).
Definition dbind {A B} (c : Deref A) (k : A -> Deref B) : Deref B :=
  match c with
  | None => None
  | Some (a, r1) =>
      match k a with
      | None => None
      | Some (b, r2) => Some (b, r1 ++ r2)
      end
  end.

(** [_declaration->name()] *)
Definition deref_name (p : DeclPtr) : Deref string :=
  match p with
  | Some d => Some (declName d, [NameRead d])
  | None => None
  end.

(** The two overloads that take the identifier name are defined in
    LanguageServer.cpp; they are parameters here.  The second one appends
    to [_output], received and given back as a list. *)
Variable findAllReferences_named :
  DeclPtr -> string -> SourceUnit -> list DocumentHighlight.
Variable findAllReferences_named_into :
  DeclPtr -> string -> SourceUnit -> URI -> list Location -> list Location.

(** Lines 92-101:
    [if (_declaration) return findAllReferences(_declaration, _declaration->name(), _sourceUnit); else return {};] *)
Definition findAllReferences (_declaration : DeclPtr) (_sourceUnit : SourceUnit)
  : Deref (list DocumentHighlight) :=
  match _declaration with
  | Some _ =>
      dbind (deref_name _declaration) (fun n =>
      dret (findAllReferences_named _declaration n _sourceUnit))
  | None => dret []
  end.

(** Lines 111-122:
    [if (!_declaration) return; findAllReferences(_declaration, _declaration->name(), _sourceUnit, _sourceUnitUri, _output);]
    The result is the content of [_output] on return. *)
Definition findAllReferences_into
    (_declaration : DeclPtr) (_sourceUnit : SourceUnit)
    (_sourceUnitUri : URI) (_output : list Location)
  : Deref (list Location) :=
  match _declaration with
  | None => dret _output
  | Some _ =>
      dbind (deref_name _declaration) (fun n =>
      dret (findAllReferences_named_into
              _declaration n _sourceUnit _sourceUnitUri _output))
  end.
End FindAllReferences.

Arguments NameRead {Declaration} d.
Arguments findAllReferences {Declaration SourceUnit} declName
  findAllReferences_named _declaration _sourceUnit.
Arguments findAllReferences_into {Declaration SourceUnit} declName
  findAllReferences_named_into _declaration _sourceUnit _sourceUnitUri _output.

Section ReferenceBatches.
Variables Declaration SourceUnit : Type.
Variable declName : Declaration -> string.
Variable findAllReferences_named :
  option Declaration -> string -> SourceUnit -> list DocumentHighlight.
Variable findAllReferences_named_into :
  option Declaration -> string -> SourceUnit -> URI ->
  list Location -> list Location.

(** One [_output] vector handed to the output-parameter overload for each
    target in turn, as a caller that gathers references does. *)
Fixpoint collectReferences
    (targets : list (option Declaration * (SourceUnit * URI)))
    (_output : list Location) : Deref Declaration (list Location) :=
  match targets with
  | [] => dret Declaration _output
  | (p, (su, u)) :: rest =>
      dbind Declaration
        (findAllReferences_into declName findAllReferences_named_into
           p su u _output)
        (fun out' => collectReferences rest out')
  end.

(** The results of the value-returning overload for each target, one
    after the other. *)
Fixpoint collectHighlights (targets : list (option Declaration * SourceUnit))
  : Deref Declaration (list DocumentHighlight) :=
  match targets with
  | [] => dret Declaration []
  | (p, su) :: rest =>
      dbind Declaration
        (findAllReferences declName findAllReferences_named p su)
        (fun hs =>
           dbind Declaration (collectHighlights rest)
             (fun more => dret Declaration (hs ++ more)))
  end.

(** The targets whose pointer is not null, with the declaration pointed
    to. *)
Definition presentTargets {T} (targets : list (option Declaration * T))
  : list (Declaration * T) :=
  omap (fun t => (fun d => (d, t.2)) <$> t.1) targets.

(** What the callee makes of [_output] for one present target. *)
Definition intoStep (out : list Location)
    (t : Declaration * (SourceUnit * URI)) : list Location :=
  findAllReferences_named_into (Some t.1) (declName t.1) t.2.1 t.2.2 out.

(** The callee only appends to [_output]. *)
Definition appendsOnly : Prop :=
  forall p n su u out, out `prefix_of` findAllReferences_named_into p n su u out.
End ReferenceBatches.

Arguments collectReferences {Declaration SourceUnit} declName
  findAllReferences_named_into targets _output.
Arguments collectHighlights {Declaration SourceUnit} declName
  findAllReferences_named targets.
Arguments presentTargets {Declaration T} targets.
Arguments appendsOnly {Declaration SourceUnit} findAllReferences_named_into.
Arguments intoStep {Declaration SourceUnit} declName
  findAllReferences_named_into out t.

(* ===================================================================== *)
(** * 4. The [Server] object (Server.h, lines 240-249)                     *)
(* ===================================================================== *)

(** [using Handler = std::function<void(MessageId, Json::Value const&)>].
    A handler is one of the protected [handle_*] member functions bound to
    the server object, so a table entry is the name of the member.  The
    header declares no member for "initialized" and "shutdown"; the last two
    tags stand for the closures registered for them. *)
Inductive Handler :=
| handle_initializeRequest
| handle_exit
| handle_workspace_didChangeConfiguration
| handle_textDocument_didOpen
| handle_textDocument_didChange
| handle_textDocument_didClose
| handle_textDocument_definition
| handle_textDocument_highlight
| handle_textDocument_references
| handle_initialized
| handle_shutdown.

#[global] Instance Handler_eq_dec : EqDecision Handler.
Proof. solve_decision. Defined.

(** The data members.  [m_client] is the transport: what is read from it is
    the input of [run], what is written to it is [sent] below.  [m_logger]
    is the process's logging sink and carries no protocol state. *)
Record Server := {
  m_handlers : gmap string Handler;   (* HandlerMap m_handlers *)
  m_shutdownRequested : bool;         (* = false *)
  m_exitRequested : bool;             (* = false *)
  m_trace : Trace                     (* = ::lsp::Trace::Off *)
}.

(** [Trace trace() const noexcept { return m_trace; }]: the value returned
    and the object after the call. *)
Definition Server_trace (s : Server) : Trace * Server := (m_trace s, s).

(** Modelled from the spec: registration into the dispatch table, done by
    the constructor in Server.cpp, which is missing.  "Dispatch Table
    invariant: method names are unique; last registration wins if
    re-registered." *)
Definition registerHandler (table : gmap string Handler) (entry : string * Handler)
  : gmap string Handler :=
  <[entry.1 := entry.2]> table.

Definition registerAll (entries : list (string * Handler)) : gmap string Handler :=
  foldl registerHandler ∅ entries.

(** Modelled from the spec: the registrations of the constructor, one per
    method of the inbound surface of section 6. *)
Definition standardHandlers : list (string * Handler) :=
  [ ("initialize", handle_initializeRequest);
    ("initialized", handle_initialized);
    ("workspace/didChangeConfiguration", handle_workspace_didChangeConfiguration);
    ("textDocument/didOpen", handle_textDocument_didOpen);
    ("textDocument/didChange", handle_textDocument_didChange);
    ("textDocument/didClose", handle_textDocument_didClose);
    ("textDocument/definition", handle_textDocument_definition);
    ("textDocument/documentHighlight", handle_textDocument_highlight);
    ("textDocument/references", handle_textDocument_references);
    ("shutdown", handle_shutdown);
    ("exit", handle_exit) ].

(** The object a constructor leaves when it initialises [m_handlers] and
    names no other data member: those take their default member
    initialisers ([m_shutdownRequested = false], [m_exitRequested = false],
    [m_trace = ::lsp::Trace::Off]). *)
Definition Server_init (handlers : gmap string Handler) : Server :=
  {| m_handlers := handlers;
     m_shutdownRequested := false;
     m_exitRequested := false;
     m_trace := Off |}.

(** Modelled from the spec: the constructor [Server::Server] of Server.cpp;
    the table is "built once at construction". *)
Definition Server_new : Server := Server_init (registerAll standardHandlers).

(* ===================================================================== *)
(** * 5. Protocol engine                                                   *)
(* ===================================================================== *)

(** Modelled from the spec: a JSON-RPC message after the Message Codec
    (liblsp/Transport.h is missing): "the remote-procedure-call envelope
    format (id, method, params)". *)
Record Message := {
  msg_id : MessageId;
  msg_method : string;
  msg_params : Json
}.

(** Modelled from the spec: what the server writes to the transport, whose
    interface (liblsp/Transport.h) is missing: "JSON-RPC responses keyed by
    MessageId; textDocument/publishDiagnostics notification ...; a
    logging/trace side-channel notification". *)
Inductive Outbound :=
| Reply (id : MessageId) (result : Json)
| ErrorReply (id : MessageId) (code : ErrorCode) (message : string)
| PublishDiagnostics (uri : URI) (version : option Z) (diags : list Diagnostic)
| LogNotification (message : string)
| TraceNotification (message : string).

(** Modelled from the spec: the header has no member that records whether
    [initialize] was handled; the spec's lifecycle needs one.
    "initialize ... transitions to a pending-initialized state";
    "initialized() notification: transitions Uninitialized-pending ->
    Initialized". *)
Inductive InitPhase := NotInitialized | InitializePending | InitializeDone.

#[global] Instance InitPhase_eq_dec : EqDecision InitPhase.
Proof. solve_decision. Defined.

(** The capability hooks by name, for the hook-call log ("verify via a
    hook-call counter"). *)
Inductive HookName :=
| Hook_initialize | Hook_initialized | Hook_changeConfiguration
| Hook_documentOpened | Hook_documentContentUpdated | Hook_documentClosed
| Hook_gotoDefinition | Hook_semanticHighlight | Hook_references.

(** The running engine: the [Server] members, the lifecycle phase, the
    state [E] of the class that derives from [Server], the messages written
    to the transport (oldest first) and the log of hook invocations. *)
Record Engine (E : Type) := {
  server : Server;
  phase : InitPhase;
  object : E;
  sent : list Outbound;
  hookCalls : list HookName
}.
Arguments server {E}.
Arguments phase {E}.
Arguments object {E}.
Arguments sent {E}.
Arguments hookCalls {E}.

(** Modelled from the spec: "State machine over {Uninitialized,
    Initialized, ShutdownRequested, Exited}", with the pending state
    between [initialize] and [initialized], read off the two flags of the
    header and the phase. *)
Inductive Lifecycle :=
| Uninitialized | InitializedPending | Initialized | ShutdownRequested | Exited.

Definition lifecycle {E} (w : Engine E) : Lifecycle :=
  if m_exitRequested (server w) then Exited
  else match phase w with
       | NotInitialized => Uninitialized
       | InitializePending =>
           if m_shutdownRequested (server w) then ShutdownRequested
           else InitializedPending
       | InitializeDone =>
           if m_shutdownRequested (server w) then ShutdownRequested
           else Initialized
       end.

(** Modelled from the spec: one content change of a [didChange], "full
    replace or range patch". *)
Inductive ContentChange :=
| FullChange (text : string)
| RangeChange (range : Range) (text : string).

(** Conversion between [Json::Value] parameters and typed arguments.  The
    parameter layouts are those of Server.cpp and are not fixed by the
    header; the engine is parametric in them. *)
Record ParamCodec := {
  decodeInitialize : Json -> option (URI * list WorkspaceFolder);
  decodeTrace : Json -> option Trace;
  decodeDidOpen : Json -> option (URI * string * Z * string);
  decodeDidChange : Json -> option (URI * option Z * list ContentChange);
  decodeDidClose : Json -> option URI;
  decodeDocumentPosition : Json -> option DocumentPosition;
  encodeServerId : ServerId -> Json;
  encodeLocations : list Location -> Json;
  encodeHighlights : list DocumentHighlight -> Json
}.

Section ProtocolEngine.
Context {E : Type}.
Variable hooks : ServerHooks E.
Variable codec : ParamCodec.

(** The "fixed threshold" of the main loop; its value is a constant of
    Server.cpp. *)
Variable maxConsecutiveFailures : nat.

(** ** Outbound operations *)

(** Modelled from the spec: the write on the transport
    ("send(GenericValue)"); liblsp/Transport.h is missing. *)
Definition send (o : Outbound) (w : Engine E) : Engine E :=
  {| server := server w; phase := phase w; object := object w;
     sent := sent w ++ [o]; hookCalls := hookCalls w |}.

(** Modelled from the spec: [void error(MessageId const& _id, ErrorCode,
    std::string const& _message)], declared in Server.h, body missing:
    "Sends a message to the client". *)
Definition Server_error (id : MessageId) (code : ErrorCode) (message : string)
    (w : Engine E) : Engine E :=
  send (ErrorReply id code message) w.

(** Modelled from the spec: [void pushDiagnostics(URI const&,
    std::optional<int>, std::vector<Diagnostic> const&)], declared in
    Server.h, body missing: "emits one outbound notification per call". *)
Definition Server_pushDiagnostics (uri : URI) (version : option Z)
    (diags : list Diagnostic) (w : Engine E) : Engine E :=
  send (PublishDiagnostics uri version diags) w.

(** Modelled from the spec: [void log(std::string const&)], declared in
    Server.h, body missing: "suppressed unless Trace >= Messages". *)
Definition Server_log (message : string) (w : Engine E) : Engine E :=
  match m_trace (server w) with
  | Off => w
  | Messages | Verbose => send (LogNotification message) w
  end.

(** Modelled from the spec: [void trace(std::string const&)], declared in
    Server.h, body missing: "suppressed unless Trace >= Verbose". *)
Definition Server_traceMessage (message : string) (w : Engine E) : Engine E :=
  match m_trace (server w) with
  | Verbose => send (TraceNotification message) w
  | Off | Messages => w
  end.

(** Modelled from the spec: an error answers a request; "notifications
    are silently dropped". *)
Definition reject (id : MessageId) (code : ErrorCode) (message : string)
    (w : Engine E) : Engine E :=
  if isRequest id then Server_error id code message w else w.

(** Modelled from the spec: the response to a request, "keyed by
    MessageId"; a notification has no id to answer. *)
Definition reply (id : MessageId) (result : Json) (w : Engine E) : Engine E :=
  if isRequest id then send (Reply id result) w else w.

(** ** Calling a capability hook *)

(** An outbound call of a hook, carried out by the server member it
    names. *)
Definition performCall (w : Engine E) (c : ServerCall) : Engine E :=
  match c with
  | CallPushDiagnostics uri version diags =>
      Server_pushDiagnostics uri version diags w
  | CallLog message => Server_log message w
  | CallTrace message => Server_traceMessage message w
  end.

(** A virtual call: the hook runs on the object, its outbound calls are
    carried out in order, and the call is logged.  The [Server] members are
    private and out of the hook's reach. *)
Definition callHook {A} (name : HookName) (h : Hook E A) (w : Engine E)
  : Result A * Engine E :=
  let '(r, e', calls) := h (object w) in
  (r, foldl performCall
        {| server := server w; phase := phase w; object := e';
           sent := sent w; hookCalls := hookCalls w ++ [name] |}
        calls).

(** ** State updates of the engine itself *)

Definition setPhase (p : InitPhase) (w : Engine E) : Engine E :=
  {| server := server w; phase := p; object := object w;
     sent := sent w; hookCalls := hookCalls w |}.

Definition setServer (s : Server) (w : Engine E) : Engine E :=
  {| server := s; phase := phase w; object := object w;
     sent := sent w; hookCalls := hookCalls w |}.

Definition requestShutdown (s : Server) : Server :=
  {| m_handlers := m_handlers s; m_shutdownRequested := true;
     m_exitRequested := m_exitRequested s; m_trace := m_trace s |}.

Definition requestExit (s : Server) : Server :=
  {| m_handlers := m_handlers s; m_shutdownRequested := m_shutdownRequested s;
     m_exitRequested := true; m_trace := m_trace s |}.

Definition assignTrace (t : Trace) (s : Server) : Server :=
  {| m_handlers := m_handlers s; m_shutdownRequested := m_shutdownRequested s;
     m_exitRequested := m_exitRequested s; m_trace := t |}.

(** ** The handlers.  All are modelled from the spec: their bodies are in
    Server.cpp, which is missing. *)

(** Modelled from the spec: [Server::handle_initializeRequest].
    "initialize(rootUri, workspaceFolders) -> ServerId ... transitions to
    a pending-initialized state"; a repeated [initialize] is answered
    with [InvalidRequest] (section 9); "malformed parameters for a known
    method - InvalidParams". *)
Definition run_handle_initializeRequest (id : MessageId) (args : Json)
    (w : Engine E) : Engine E :=
  match phase w with
  | NotInitialized =>
      match decodeInitialize codec args with
      | None => reject id InvalidParams "invalid initialize parameters" w
      | Some (rootUri, folders) =>
          let '(r, w1) :=
            callHook Hook_initialize (initialize hooks rootUri folders) w in
          match r with
          | Ok sid => reply id (encodeServerId codec sid)
                        (setPhase InitializePending w1)
          | Failed code message => reject id code message w1
          end
      end
  | InitializePending | InitializeDone =>
      reject id InvalidRequest "initialize was already requested" w
  end.

(** Modelled from the spec: the "initialized" entry.  "transitions
    Uninitialized-pending -> Initialized". *)
Definition run_handle_initialized (id : MessageId) (args : Json)
    (w : Engine E) : Engine E :=
  let '(r, w1) := callHook Hook_initialized (initialized hooks) w in
  match r with
  | Ok _ =>
      match phase w1 with
      | InitializePending => setPhase InitializeDone w1
      | NotInitialized | InitializeDone => w1
      end
  | Failed code message => reject id code message w1
  end.

(** Modelled from the spec: the "shutdown" entry.  "transitions
    Initialized -> ShutdownRequested; must still answer the request
    successfully".  The transition belongs to the request; a message of
    that name without an id cannot be answered and is dropped like any
    notification the engine has no use for. *)
Definition run_handle_shutdown (id : MessageId) (args : Json)
    (w : Engine E) : Engine E :=
  if isRequest id
  then reply id JNull (setServer (requestShutdown (server w)) w)
  else w.

(** Modelled from the spec: [Server::handle_exit].  "transitions any state
    -> Exited; terminates the read loop". *)
Definition run_handle_exit (id : MessageId) (args : Json)
    (w : Engine E) : Engine E :=
  setServer (requestExit (server w)) w.

(** Modelled from the spec: [Server::handle_workspace_didChangeConfiguration].
    "Trace ... settable only via configuration". *)
Definition run_handle_workspace_didChangeConfiguration
    (id : MessageId) (args : Json) (w : Engine E) : Engine E :=
  let w0 :=
    match decodeTrace codec args with
    | Some t => setServer (assignTrace t (server w)) w
    | None => w
    end in
  let '(r, w1) :=
    callHook Hook_changeConfiguration (changeConfiguration hooks args) w0 in
  match r with
  | Ok _ => w1
  | Failed code message => reject id code message w1
  end.

(** Modelled from the spec: [Server::handle_textDocument_didOpen]. *)
Definition run_handle_textDocument_didOpen (id : MessageId) (args : Json)
    (w : Engine E) : Engine E :=
  match decodeDidOpen codec args with
  | None => reject id InvalidParams "invalid didOpen parameters" w
  | Some (uri, languageId, version, contents) =>
      let '(r, w1) :=
        callHook Hook_documentOpened
          (documentOpened hooks uri languageId version contents) w in
      match r with
      | Ok _ => w1
      | Failed code message => reject id code message w1
      end
  end.

(** Modelled from the spec: the content changes of one [didChange], each
    given to the full-replace or to the range-patch overload, in order, up
    to the first one that fails. *)
Fixpoint applyContentChanges (uri : URI) (version : option Z)
    (changes : list ContentChange) (w : Engine E) : Result unit * Engine E :=
  match changes with
  | [] => (Ok tt, w)
  | change :: rest =>
      let hook :=
        match change with
        | FullChange text =>
            documentContentUpdated_full hooks uri version text
        | RangeChange range text =>
            documentContentUpdated_range hooks uri version range text
        end in
      let '(r, w1) := callHook Hook_documentContentUpdated hook w in
      match r with
      | Ok _ => applyContentChanges uri version rest w1
      | Failed code message => (Failed code message, w1)
      end
  end.

(** Modelled from the spec: [Server::handle_textDocument_didChange].
    Each change goes to the full-replace or the range-patch overload, then
    the bare "content changed" notice is given. *)
Definition run_handle_textDocument_didChange (id : MessageId) (args : Json)
    (w : Engine E) : Engine E :=
  match decodeDidChange codec args with
  | None => reject id InvalidParams "invalid didChange parameters" w
  | Some (uri, version, changes) =>
      let '(r, w1) := applyContentChanges uri version changes w in
      match r with
      | Failed code message => reject id code message w1
      | Ok _ =>
          let '(r2, w2) :=
            callHook Hook_documentContentUpdated
              (documentContentUpdated_notice hooks uri) w1 in
          match r2 with
          | Ok _ => w2
          | Failed code message => reject id code message w2
          end
      end
  end.

(** Modelled from the spec: [Server::handle_textDocument_didClose]. *)
Definition run_handle_textDocument_didClose (id : MessageId) (args : Json)
    (w : Engine E) : Engine E :=
  match decodeDidClose codec args with
  | None => reject id InvalidParams "invalid didClose parameters" w
  | Some uri =>
      let '(r, w1) := callHook Hook_documentClosed (documentClosed hooks uri) w in
      match r with
      | Ok _ => w1
      | Failed code message => reject id code message w1
      end
  end.

(** Modelled from the spec: the shape the three position queries share:
    decode the position, ask the hook, answer with its result. *)
Definition positionQuery {A} (name : HookName)
    (hook : DocumentPosition -> Hook E A) (encode : A -> Json)
    (id : MessageId) (args : Json) (w : Engine E) : Engine E :=
  match decodeDocumentPosition codec args with
  | None => reject id InvalidParams "invalid position parameters" w
  | Some pos =>
      let '(r, w1) := callHook name (hook pos) w in
      match r with
      | Ok a => reply id (encode a) w1
      | Failed code message => reject id code message w1
      end
  end.

(** Modelled from the spec: [Server::handle_textDocument_definition],
    [handle_textDocument_highlight], [handle_textDocument_references]. *)
Definition run_handle_textDocument_definition :=
  positionQuery Hook_gotoDefinition (gotoDefinition hooks) (encodeLocations codec).
Definition run_handle_textDocument_highlight :=
  positionQuery Hook_semanticHighlight (semanticHighlight hooks)
    (encodeHighlights codec).
Definition run_handle_textDocument_references :=
  positionQuery Hook_references (references hooks) (encodeLocations codec).

(** Modelled from the spec: invocation of a table entry with the id and
    the params of the message. *)
Definition invoke (h : Handler) : MessageId -> Json -> Engine E -> Engine E :=
  match h with
  | handle_initializeRequest => run_handle_initializeRequest
  | handle_exit => run_handle_exit
  | handle_workspace_didChangeConfiguration =>
      run_handle_workspace_didChangeConfiguration
  | handle_textDocument_didOpen => run_handle_textDocument_didOpen
  | handle_textDocument_didChange => run_handle_textDocument_didChange
  | handle_textDocument_didClose => run_handle_textDocument_didClose
  | handle_textDocument_definition => run_handle_textDocument_definition
  | handle_textDocument_highlight => run_handle_textDocument_highlight
  | handle_textDocument_references => run_handle_textDocument_references
  | handle_initialized => run_handle_initialized
  | handle_shutdown => run_handle_shutdown
  end.

(** ** Lifecycle check and routing *)

(** Modelled from the spec (section 4.1): which messages the lifecycle
    refuses, and with which code.  Before [initialize], "initialize" is
    "the only request legal", "any other request/notification ... fails
    with ServerNotInitialized" and "notifications are silently dropped
    except exit": the [initialize] request and the [exit] notification
    pass, every other request is refused, also one named exit.  After
    [shutdown] "only exit is legal - any other request answered with
    InvalidRequest, notifications ignored". *)
Definition lifecycleCheck (w : Engine E) (m : Message) : option ErrorCode :=
  match phase w with
  | NotInitialized =>
      if (String.eqb (msg_method m) "initialize" && isRequest (msg_id m))
         || (String.eqb (msg_method m) "exit" && negb (isRequest (msg_id m)))
      then None else Some ServerNotInitialized
  | InitializePending | InitializeDone =>
      if String.eqb (msg_method m) "exit" then None
      else if m_shutdownRequested (server w) then Some InvalidRequest
      else None
  end.

(** Modelled from the spec: [Server::handleMessage(Json::Value const&)].
    "transport -> Message Codec -> Protocol Engine (lifecycle + routing)
    -> Dispatch Table -> capability hook"; "unknown method =>
    MethodNotFound error response (requests) or silent drop
    (notifications)". *)
Definition handleMessage (m : Message) (w : Engine E) : Engine E :=
  match lifecycleCheck w m with
  | Some code => reject (msg_id m) code "request refused in this state" w
  | None =>
      match m_handlers (server w) !! msg_method m with
      | Some h => invoke h (msg_id m) (msg_params m) w
      | None => reject (msg_id m) MethodNotFound "unknown method" w
      end
  end.

Definition handleMessages (ms : list Message) (w : Engine E) : Engine E :=
  foldl (fun w m => handleMessage m w) w ms.

(** ** The main loop *)

(** Modelled from the spec: one [receive()] on the transport (interface
    in liblsp/Transport.h, missing): a message, or a failed read
    ("transport error or malformed envelope") with the id the codec could
    recover, if any, and the code to answer with ("ParseError /
    InvalidRequest"). *)
Inductive ReadResult :=
| Received (m : Message)
| ReadFailed (recoveredId : MessageId) (code : ErrorCode).

(** Modelled from the spec: the "consecutive-failure counter" of [run]
    and the engine. *)
Record Loop := { failureCount : nat; world : Engine E }.

(** Modelled from the spec: the loop condition; [exit] "terminates the
    read loop", and so does a counter that "exceeds a fixed threshold". *)
Definition loopRunning (l : Loop) : bool :=
  negb (m_exitRequested (server (world l)))
  && (failureCount l <=? maxConsecutiveFailures).

(** Modelled from the spec: one iteration, given what [receive()]
    produced.  "if the read itself fails ..., increment a
    consecutive-failure counter and respond with a ParseError /
    InvalidRequest error if an id was recoverable, otherwise drop the
    message"; "A successful message resets the counter to zero." *)
Definition loopBody (r : ReadResult) (l : Loop) : Loop :=
  match r with
  | Received m =>
      {| failureCount := 0; world := handleMessage m (world l) |}
  | ReadFailed id code =>
      {| failureCount := S (failureCount l);
         world := reject id code "unreadable message" (world l) |}
  end.

(** Modelled from the spec: the value [run] returns once the loop is
    left.  "normal termination reported only if shutdown preceded it";
    exceeding the threshold is to "report abnormal termination". *)
Definition runResult (l : Loop) : bool :=
  m_exitRequested (server (world l)) && m_shutdownRequested (server (world l)).

(** [run] on a finite prefix of what the transport delivers: either the
    loop was left and [run] returned, or it is blocked in [receive()]
    ("blocking wait for next message"). *)
Inductive RunOutcome := Returned (normal : bool) | AwaitingInput.

Fixpoint loop (inputs : list ReadResult) (l : Loop) : RunOutcome * Loop :=
  if loopRunning l then
    match inputs with
    | [] => (AwaitingInput, l)
    | r :: rest => loop rest (loopBody r l)
    end
  else (Returned (runResult l), l).

(** Modelled from the spec: [bool Server::run()]. *)
Definition run (inputs : list ReadResult) (w : Engine E) : RunOutcome * Loop :=
  loop inputs {| failureCount := 0; world := w |}.

End ProtocolEngine.

(** Modelled from the spec: a server right after construction, around an
    object [e]: Uninitialized, nothing sent, no hook called. *)
Definition Engine_new {E} (e : E) : Engine E :=
  {| server := Server_new; phase := NotInitialized; object := e;
     sent := []; hookCalls := [] |}.

(* ===================================================================== *)
(** * 6. Document store ([::lsp::vfs], liblsp/VFS.h)                       *)
(* ===================================================================== *)

Module vfs.

(** Modelled from the spec: [::lsp::vfs::File], the spec's Document; the
    header liblsp/VFS.h is missing.  "attributes (URI, languageId,
    version: optional integer, content: text)"; closing "only marks it
    unavailable for edit tracking". *)
Record File := {
  uri : URI;
  languageId : string;
  version : option Z;
  content : string;
  closed : bool
}.

(** Modelled from the spec: the failures of the store, "UnknownDocument"
    and "InvalidRange". *)
Inductive Error := UnknownDocument | InvalidRange.

(** Modelled from the spec: what a mutating operation reports. *)
Inductive Outcome := Done | Fail (e : Error).

Definition isNewline (c : ascii) : bool := Ascii.eqb c "010"%char.

(** Modelled from the spec ("UTF-16-code-unit column per LSP
    convention"): the text is held as UTF-8 bytes, and a byte stands for
    as many UTF-16 code units as the character it starts: none for a
    continuation byte (10xxxxxx), two for the first byte of a four-byte
    sequence (11110xxx, a character outside the basic plane, hence a
    surrogate pair), one for every other byte. *)
Definition utf16Units (c : ascii) : nat :=
  let b := nat_of_ascii c in
  if b <? 128 then 1
  else if b <? 192 then 0
  else if b <? 240 then 1
  else 2.

(** Length of a text in UTF-16 code units. *)
Fixpoint utf16Length (s : string) : nat :=
  match s with
  | EmptyString => 0
  | String c rest => utf16Units c + utf16Length rest
  end.

(** Modelled from the spec ("recomputing line offsets"): the lines of a
    text, line breaks excluded; a text always has a line 0. *)
Fixpoint splitLines (s : string) : list string :=
  match s with
  | EmptyString => [EmptyString]
  | String c rest =>
      if isNewline c then EmptyString :: splitLines rest
      else String c (hd EmptyString (splitLines rest)) :: tl (splitLines rest)
  end.

(** Modelled from the spec: a position lies within the "current content
    bounds" when its line exists and its column is at most the length of
    that line in UTF-16 code units. *)
Definition withinBounds (s : string) (p : Position) : bool :=
  match splitLines s !! line p with
  | Some text => character p <=? utf16Length text
  | None => false
  end.

(** Modelled from the spec: both ends of the range lie within the
    "current content bounds". *)
Definition rangeWithinBounds (s : string) (r : Range) : bool :=
  withinBounds s (range_start r) && withinBounds s (range_end r).

(** Number of continuation bytes [s] starts with. *)
Fixpoint continuationBytes (s : string) : nat :=
  match s with
  | EmptyString => 0
  | String c rest =>
      if utf16Units c =? 0 then S (continuationBytes rest) else 0
  end.

(** Modelled from the spec: byte offset of column [ch] (in UTF-16 code
    units) on the line [s] starts with.  The walk stops at the line break
    and at the end of the text; a column between the two halves of a
    surrogate pair has no offset. *)
Fixpoint columnOffset (s : string) (ch : nat) {struct s} : option nat :=
  match ch with
  | 0 => Some (continuationBytes s)
  | S _ =>
      match s with
      | EmptyString => None
      | String c rest =>
          if isNewline c then None
          else if utf16Units c <=? ch
               then S <$> columnOffset rest (ch - utf16Units c)
               else None
      end
  end.

(** Modelled from the spec: byte offset of the zero-based position
    (ln, ch) in [s], if the position lies within the "current content
    bounds". *)
Fixpoint offsetOf (s : string) (ln ch : nat) {struct s} : option nat :=
  match ln with
  | 0 => columnOffset s ch
  | S ln' =>
      match s with
      | EmptyString => None
      | String c rest =>
          S <$> offsetOf rest (if isNewline c then ln' else ln) ch
      end
  end.

Definition positionOffset (s : string) (p : Position) : option nat :=
  offsetOf s (line p) (character p).

(** Modelled from the spec: the offsets of a range that is within bounds
    and ordered ("start <= end"). *)
Definition rangeOffsets (s : string) (r : Range) : option (nat * nat) :=
  match positionOffset s (range_start r), positionOffset s (range_end r) with
  | Some a, Some b => if a <=? b then Some (a, b) else None
  | _, _ => None
  end.

(** Modelled from the spec: the "reference string-splice", [s] with
    offsets a..b replaced by [text]. *)
Definition splice (s : string) (a b : nat) (text : string) : string :=
  String.append (String.substring 0 a s)
    (String.append text (String.substring b (String.length s - b) s)).

(** Modelled from the spec: the version kept by an edit; "must store the
    latest value it is given". *)
Definition newerVersion (given old : option Z) : option Z :=
  match given with Some _ => given | None => old end.

(** Modelled from the spec: [open(uri, languageId, version, content)];
    "concrete policy: re-opening replaces content/version
    unconditionally". *)
Definition open (u : URI) (lang : string) (v : Z) (text : string)
    (store : gmap string File) : Outcome * gmap string File :=
  (Done,
   <[u := {| uri := u; languageId := lang; version := Some v;
             content := text; closed := false |}]> store).

(** Modelled from the spec: [applyFull(uri, version?, content)];
    "replaces content wholesale; fails with UnknownDocument if URI was
    never opened". *)
Definition applyFull (u : URI) (v : option Z) (text : string)
    (store : gmap string File) : Outcome * gmap string File :=
  match store !! u with
  | None => (Fail UnknownDocument, store)
  | Some f =>
      (Done,
       <[u := {| uri := uri f; languageId := languageId f;
                 version := newerVersion v (version f);
                 content := text; closed := closed f |}]> store)
  end.

(** Modelled from the spec: [applyRange(uri, version?, range, text)];
    "replaces the text strictly inside range with text ...; range must be
    validated against current content bounds - out-of-range request fails
    with InvalidRange and must not partially mutate the document". *)
Definition applyRange (u : URI) (v : option Z) (r : Range) (text : string)
    (store : gmap string File) : Outcome * gmap string File :=
  match store !! u with
  | None => (Fail UnknownDocument, store)
  | Some f =>
      match rangeOffsets (content f) r with
      | None => (Fail InvalidRange, store)
      | Some (a, b) =>
          (Done,
           <[u := {| uri := uri f; languageId := languageId f;
                     version := newerVersion v (version f);
                     content := splice (content f) a b text;
                     closed := closed f |}]> store)
      end
  end.

(** Modelled from the spec: [close(uri)]; "marks closed but retains
    content". *)
Definition close (u : URI) (store : gmap string File)
  : Outcome * gmap string File :=
  match store !! u with
  | None => (Done, store)
  | Some f =>
      (Done,
       <[u := {| uri := uri f; languageId := languageId f;
                 version := version f; content := content f;
                 closed := true |}]> store)
  end.

(** Modelled from the spec: [get(uri) -> Document | NotFound]. *)
Definition get (u : URI) (store : gmap string File) : option File :=
  store !! u.

End vfs.

(* ===================================================================== *)
(** * 7. [LanguageServer] (LanguageServer.h)                               *)
(* ===================================================================== *)

(** The data members the document hooks work on.  The remaining members
    ([m_fileReader], [m_allowedDirectories], [m_sourceCodes],
    [m_compilerStack], [m_remappings], [m_evmVersion]) belong to the
    compiler front end, which enters below as [Analysis]. *)
Record LanguageServer := {
  m_vfs : gmap string vfs.File;   (* ::lsp::vfs::VFS m_vfs *)
  m_basePath : string             (* boost::filesystem::path m_basePath *)
}.

(** Modelled from the spec: "the concrete language-analysis engine that
    answers go to definition, find references and highlight queries, and
    that produces diagnostics from source text", an external collaborator
    (libsolidity's compiler stack behind [m_compilerStack]). *)
Record Analysis := {
  serverId : ServerId;
  diagnose : gmap string vfs.File -> URI -> list Diagnostic;
  findDefinition : gmap string vfs.File -> DocumentPosition -> list Location;
  findHighlights :
    gmap string vfs.File -> DocumentPosition -> list DocumentHighlight;
  findReferences : gmap string vfs.File -> DocumentPosition -> list Location
}.

Section LanguageServerHooks.
Variable analysis : Analysis.

(** The object with its [m_vfs] replaced. *)
Definition withVfs (store : gmap string vfs.File) (ls : LanguageServer)
  : LanguageServer :=
  {| m_vfs := store; m_basePath := m_basePath ls |}.

(** Modelled from the spec: how a document-store failure is reported;
    "reported as a request error". *)
Definition storeErrorCode (e : vfs.Error) : ErrorCode :=
  match e with
  | vfs.InvalidRange => InvalidRange
  | vfs.UnknownDocument => RequestFailed
  end.

(** Modelled from the spec: [LanguageServer::validate]; "update
    diagnostics and also pushes any updates to the client" (header
    comment), tagged with the stored version. *)
Definition validate (u : URI) (store : gmap string vfs.File) : list ServerCall :=
  match vfs.get u store with
  | Some f => [CallPushDiagnostics u (vfs.version f) (diagnose analysis store u)]
  | None => []
  end.

(** Modelled from the spec: a hook that is one store operation; "The
    Document Store is mutated only by the didOpen/didChange/didClose
    hooks". *)
Definition storeHook (op : gmap string vfs.File -> vfs.Outcome * gmap string vfs.File)
  : Hook LanguageServer unit :=
  fun ls =>
    match op (m_vfs ls) with
    | (vfs.Done, store') => (Ok tt, withVfs store' ls, [])
    | (vfs.Fail e, store') =>
        (Failed (storeErrorCode e) "document store error", withVfs store' ls, [])
    end.

(** Modelled from the spec: [LanguageServer::initialize]; the body is in
    LanguageServer.cpp, which is missing, as are those of the other
    overrides below. *)
Definition LanguageServer_initialize (_rootUri : URI)
    (_workspaceFolders : list WorkspaceFolder) : Hook LanguageServer ServerId :=
  fun ls =>
    (Ok (serverId analysis),
     {| m_vfs := m_vfs ls; m_basePath := _rootUri |}, []).

(** Modelled from the spec: [LanguageServer::initialized]. *)
Definition LanguageServer_initialized : Hook LanguageServer unit :=
  fun ls => (Ok tt, ls, []).

(** Modelled from the spec: [LanguageServer::changeConfiguration]. *)
Definition LanguageServer_changeConfiguration (_ : Json)
  : Hook LanguageServer unit :=
  fun ls => (Ok tt, ls, []).

(** Modelled from the spec: [LanguageServer::documentOpened]: the store's [open]. *)
Definition LanguageServer_documentOpened (_uri : URI) (_languageId : string)
    (_documentVersion : Z) (_contents : string) : Hook LanguageServer unit :=
  storeHook (vfs.open _uri _languageId _documentVersion _contents).

(** Modelled from the spec: [LanguageServer::documentContentUpdated] (full replace): the
    store's [applyFull]. *)
Definition LanguageServer_documentContentUpdated_full (_uri : URI)
    (_documentVersion : option Z) (_fullContentChange : string)
  : Hook LanguageServer unit :=
  storeHook (vfs.applyFull _uri _documentVersion _fullContentChange).

(** Modelled from the spec: [LanguageServer::documentContentUpdated] (range patch): the
    store's [applyRange]. *)
Definition LanguageServer_documentContentUpdated_range (_uri : URI)
    (_version : option Z) (_range : Range) (_text : string)
  : Hook LanguageServer unit :=
  storeHook (vfs.applyRange _uri _version _range _text).

(** Modelled from the spec: [LanguageServer::documentContentUpdated] (notice): a
    validation run. *)
Definition LanguageServer_documentContentUpdated_notice (_uri : URI)
  : Hook LanguageServer unit :=
  fun ls => (Ok tt, ls, validate _uri (m_vfs ls)).

(** Modelled from the spec: [LanguageServer::documentClosed]: the store's [close]. *)
Definition LanguageServer_documentClosed (_uri : URI)
  : Hook LanguageServer unit :=
  storeHook (vfs.close _uri).

(** Modelled from the spec: [LanguageServer::gotoDefinition]. *)
Definition LanguageServer_gotoDefinition (_position : DocumentPosition)
  : Hook LanguageServer (list Location) :=
  fun ls => (Ok (findDefinition analysis (m_vfs ls) _position), ls, []).

(** Modelled from the spec: [LanguageServer::semanticHighlight]. *)
Definition LanguageServer_semanticHighlight (_documentPosition : DocumentPosition)
  : Hook LanguageServer (list DocumentHighlight) :=
  fun ls => (Ok (findHighlights analysis (m_vfs ls) _documentPosition), ls, []).

(** Modelled from the spec: [LanguageServer::references]. *)
Definition LanguageServer_references (_documentPosition : DocumentPosition)
  : Hook LanguageServer (list Location) :=
  fun ls => (Ok (findReferences analysis (m_vfs ls) _documentPosition), ls, []).

(** The virtual table of [LanguageServer]: every hook is overridden
    (LanguageServer.h, lines 59-69). *)
Definition LanguageServer_vtable : ServerHooks LanguageServer :=
  {| initialize := LanguageServer_initialize;
     initialized := LanguageServer_initialized;
     changeConfiguration := LanguageServer_changeConfiguration;
     documentOpened := LanguageServer_documentOpened;
     documentContentUpdated_full := LanguageServer_documentContentUpdated_full;
     documentContentUpdated_notice := LanguageServer_documentContentUpdated_notice;
     documentContentUpdated_range := LanguageServer_documentContentUpdated_range;
     documentClosed := LanguageServer_documentClosed;
     gotoDefinition := LanguageServer_gotoDefinition;
     semanticHighlight := LanguageServer_semanticHighlight;
     references := LanguageServer_references |}.

(** Modelled from the spec: a language server right after construction,
    with no document opened yet. *)
Definition LanguageServer_new : LanguageServer :=
  {| m_vfs := ∅; m_basePath := "" |}.
End LanguageServerHooks.

(** What invoking a handler does to the [Server] members. *)
Definition serverAfter (codec : ParamCodec) (h : Handler) (id : MessageId)
    (args : Json) (s : Server) : Server :=
  match h with
  | handle_shutdown =>
      if isRequest id
      then {| m_handlers := m_handlers s; m_shutdownRequested := true;
              m_exitRequested := m_exitRequested s; m_trace := m_trace s |}
      else s
  | handle_exit =>
      {| m_handlers := m_handlers s; m_shutdownRequested := m_shutdownRequested s;
         m_exitRequested := true; m_trace := m_trace s |}
  | handle_workspace_didChangeConfiguration =>
      match decodeTrace codec args with
      | Some t =>
          {| m_handlers := m_handlers s;
             m_shutdownRequested := m_shutdownRequested s;
             m_exitRequested := m_exitRequested s; m_trace := t |}
      | None => s
      end
  | _ => s
  end.

(** A parameter codec that decodes nothing, a class that overrides only
    [initialize], and a message constructor, for the closed examples. *)
Definition noParams : ParamCodec :=
  {| decodeInitialize := fun _ => None;
     decodeTrace := fun _ => None;
     decodeDidOpen := fun _ => None;
     decodeDidChange := fun _ => None;
     decodeDidClose := fun _ => None;
     decodeDocumentPosition := fun _ => None;
     encodeServerId := fun _ => JNull;
     encodeLocations := fun _ => JNull;
     encodeHighlights := fun _ => JNull |}.

(** A small codec for the closed examples: the root URI, the trace level
    and the URI to close are JSON strings; a document to open or to replace
    is the array of its URI and its text. *)
Definition sampleCodec : ParamCodec :=
  {| decodeInitialize :=
       fun j => match j with JString root => Some (root, []) | _ => None end;
     decodeTrace :=
       fun j => match j with
                | JString s =>
                    if String.eqb s "off" then Some Off
                    else if String.eqb s "messages" then Some Messages
                    else if String.eqb s "verbose" then Some Verbose
                    else None
                | _ => None
                end;
     decodeDidOpen :=
       fun j => match j with
                | JArray [JString u; JString text] =>
                    Some (u, "solidity", 1%Z, text)
                | _ => None
                end;
     decodeDidChange :=
       fun j => match j with
                | JArray [JString u; JString text] =>
                    Some (u, None, [FullChange text])
                | _ => None
                end;
     decodeDidClose :=
       fun j => match j with JString u => Some u | _ => None end;
     decodeDocumentPosition := fun _ => None;
     encodeServerId := fun sid => JString (serverName sid);
     encodeLocations := fun _ => JArray [];
     encodeHighlights := fun _ => JArray [] |}.

Definition minimalServer : ServerHooks unit :=
  Server_vtable
    (fun _ _ e => (Ok {| serverName := "minimal"; serverVersion := "0" |}, e, [])).

Definition message (id : MessageId) (method : string) : Message :=
  {| msg_id := id; msg_method := method; msg_params := JNull |}.





(** Every hook of a virtual table keeps a property of the object. *)
Definition hooksPreserve {E} (P : E -> Prop) (hooks : ServerHooks E) : Prop :=
  forall e, P e ->
    (forall u f, P (initialize hooks u f e).1.2) /\
    P (initialized hooks e).1.2 /\
    (forall j, P (changeConfiguration hooks j e).1.2) /\
    (forall u l v c, P (documentOpened hooks u l v c e).1.2) /\
    (forall u v c, P (documentContentUpdated_full hooks u v c e).1.2) /\
    (forall u, P (documentContentUpdated_notice hooks u e).1.2) /\
    (forall u v r t, P (documentContentUpdated_range hooks u v r t e).1.2) /\
    (forall u, P (documentClosed hooks u e).1.2) /\
    (forall p, P (gotoDefinition hooks p e).1.2) /\
    (forall p, P (semanticHighlight hooks p e).1.2) /\
    (forall p, P (references hooks p e).1.2).

(* ===================================================================== *)
(** * 8. Predicates and sample data of the proofs                          *)
(* ===================================================================== *)

(** [w'] differs from [w] at most in the messages sent. *)
Definition onlySent {E} (w w' : Engine E) : Prop :=
  server w' = server w /\ phase w' = phase w /\
  object w' = object w /\ hookCalls w' = hookCalls w.

(** The part of the state a handler may change, summarised: the [Server]
    members as [serverAfter] says, a property [P] of the object that all
    hooks keep, and the phase, which moves forward only. *)
Definition stepped {E} (P : E -> Prop) (codec : ParamCodec) (h : Handler)
    (id : MessageId) (args : Json) (w w' : Engine E) : Prop :=
  server w' = serverAfter codec h id args (server w) /\
  (P (object w) -> P (object w')) /\
  (phase w' = phase w \/
   (h = handle_initializeRequest /\ phase w = NotInitialized /\
    phase w' = InitializePending) \/
   (h = handle_initialized /\ phase w = InitializePending /\
    phase w' = InitializeDone)).




(** An analysis engine that finds nothing. *)
Definition noAnalysis : Analysis :=
  {| serverId := {| serverName := "solc"; serverVersion := "0" |};
     diagnose := fun _ _ => [];
     findDefinition := fun _ _ => [];
     findHighlights := fun _ _ => [];
     findReferences := fun _ _ => [] |}.

(** The store of the examples: "file:///a.sol" opened with content "a",
    version 1. *)
Definition storeWithA : LanguageServer :=
  (LanguageServer_documentOpened "file:///a.sol" "solidity" 1 "a"
     LanguageServer_new).1.2.

Definition lineRange (l1 c1 l2 c2 : nat) : Range :=
  {| range_start := {| line := l1; character := c1 |};
     range_end := {| line := l2; character := c2 |} |}.

(* ===================================================================== *)
(** * 9. Properties of the code in the headers                             *)
(* ===================================================================== *)

(** C7.  Every capability hook of the base [Server] has a safe default: in
    the virtual table of a class that overrides only [initialize], the
    hooks [initialized], [changeConfiguration], [documentOpened], the three
    [documentContentUpdated] overloads and [documentClosed] complete
    leaving the object as it was and sending nothing, and [gotoDefinition],
    [semanticHighlight] and [references] return the empty list (again with
    no state change), for every input. *)
Theorem Server_default_hooks_safe :
  forall (E : Type) (init : URI -> list WorkspaceFolder -> Hook E ServerId) (e : E),
    let hooks := Server_vtable init in
    initialized hooks e = (Ok tt, e, []) /\
    (forall cfg, changeConfiguration hooks cfg e = (Ok tt, e, [])) /\
    (forall uri lang v text,
        documentOpened hooks uri lang v text e = (Ok tt, e, [])) /\
    (forall uri v text,
        documentContentUpdated_full hooks uri v text e = (Ok tt, e, [])) /\
    (forall uri, documentContentUpdated_notice hooks uri e = (Ok tt, e, [])) /\
    (forall uri v range text,
        documentContentUpdated_range hooks uri v range text e = (Ok tt, e, [])) /\
    (forall uri, documentClosed hooks uri e = (Ok tt, e, [])) /\
    (forall pos, gotoDefinition hooks pos e = (Ok [], e, [])) /\
    (forall pos, semanticHighlight hooks pos e = (Ok [], e, [])) /\
    (forall pos, references hooks pos e = (Ok [], e, [])).
Proof.
  intros E init e hooks. unfold hooks. cbn.
  repeat split.
Qed.

(** C9.  With a null declaration pointer the value-returning
    [findAllReferences] returns the empty list and the output-parameter
    overload returns with [_output] as it was, neither reading the
    declaration's name; with a non-null pointer each reads the name once
    and passes the work on with it.  So neither overload dereferences a
    null pointer, and the name is read only when the pointer is non-null. *)
Theorem findAllReferences_null_safe :
  forall (Declaration SourceUnit : Type) (declName : Declaration -> string)
         (named : option Declaration -> string -> SourceUnit -> list DocumentHighlight)
         (named_into : option Declaration -> string -> SourceUnit -> URI ->
                       list Location -> list Location)
         (su : SourceUnit),
    findAllReferences declName named None su = Some ([], []) /\
    (forall u out,
        findAllReferences_into declName named_into None su u out = Some (out, [])) /\
    (forall d,
        findAllReferences declName named (Some d) su
        = Some (named (Some d) (declName d) su, [NameRead d])) /\
    (forall d u out,
        findAllReferences_into declName named_into (Some d) su u out
        = Some (named_into (Some d) (declName d) su u out, [NameRead d])) /\
    (forall p, is_Some (findAllReferences declName named p su)) /\
    (forall p u out,
        is_Some (findAllReferences_into declName named_into p su u out)).
Proof.
  intros D SU declName named named_into su.
  repeat split; try reflexivity.
  - intros [d|]; cbn; eauto.
  - intros [d|] u out; cbn; eauto.
Qed.

(* ===================================================================== *)
(** * 10. Frame and invariant lemmas of the protocol engine                 *)
(* ===================================================================== *)

Section EngineFacts.
Context {E : Type}.
Variable hooks : ServerHooks E.
Variable codec : ParamCodec.

Lemma onlySent_refl (w : Engine E) : onlySent w w.
Proof. by repeat split. Qed.

Lemma onlySent_trans (w1 w2 w3 : Engine E) :
  onlySent w1 w2 -> onlySent w2 w3 -> onlySent w1 w3.
Proof.
  intros (?&?&?&?) (?&?&?&?). repeat split; congruence.
Qed.

Lemma send_onlySent o (w : Engine E) : onlySent w (send o w).
Proof. by repeat split. Qed.

Lemma reject_onlySent id code msg (w : Engine E) : onlySent w (reject id code msg w).
Proof.
  unfold reject, Server_error. destruct (isRequest id);
    [apply send_onlySent | apply onlySent_refl].
Qed.

Lemma reply_onlySent id result (w : Engine E) : onlySent w (reply id result w).
Proof.
  unfold reply. destruct (isRequest id);
    [apply send_onlySent | apply onlySent_refl].
Qed.


Lemma reject_notification id code msg (w : Engine E) :
  isRequest id = false -> reject id code msg w = w.
Proof. unfold reject. by intros ->. Qed.

Lemma performCall_onlySent (w : Engine E) c : onlySent w (performCall w c).
Proof.
  destruct c; cbn;
    unfold Server_pushDiagnostics, Server_log, Server_traceMessage;
    try destruct (m_trace (server w));
    first [apply send_onlySent | apply onlySent_refl].
Qed.

Lemma performCalls_onlySent calls (w : Engine E) : onlySent w (foldl performCall w calls).
Proof.
  revert w. induction calls as [|c calls IH]; intros w; cbn.
  - apply onlySent_refl.
  - eapply onlySent_trans; [apply performCall_onlySent | apply IH].
Qed.

(** What calling a hook changes: the object, as the hook says, and the
    call log; the [Server] members and the phase stay. *)
Lemma callHook_frame {A} name (h : Hook E A) w r w1 :
  callHook name h w = (r, w1) ->
  server w1 = server w /\ phase w1 = phase w /\
  object w1 = (h (object w)).1.2 /\
  hookCalls w1 = hookCalls w ++ [name].
Proof.
  unfold callHook. destruct (h (object w)) as [[r0 e'] calls] eqn:Hh.
  intros [= <- <-].
  match goal with
  | |- context [foldl performCall ?w0 calls] =>
      destruct (performCalls_onlySent calls w0) as (Hs & Hp & Ho & Hc)
  end.
  rewrite Hs, Hp, Ho, Hc. by cbn.
Qed.

Section ObjectInvariant.
Variable P : E -> Prop.
Hypothesis HP : hooksPreserve P hooks.

Lemma onlySent_keeps (w w' : Engine E) : onlySent w w' ->
  server w' = server w /\ (P (object w) -> P (object w')) /\ phase w' = phase w.
Proof. intros (-> & -> & -> & _). by repeat split. Qed.

(** A handler that calls one hook and then only answers. *)
Lemma callHook_then {A} name (h : Hook E A)
    (k : Result A -> Engine E -> Engine E) (w : Engine E) :
  (P (object w) -> P (h (object w)).1.2) ->
  (forall r w1, onlySent w1 (k r w1)) ->
  let w' := (let '(r, w1) := callHook name h w in k r w1) in
  server w' = server w /\ (P (object w) -> P (object w')) /\
  phase w' = phase w.
Proof.
  intros Hh Hk. cbv zeta.
  destruct (callHook name h w) as [r w1] eqn:Hc.
  apply callHook_frame in Hc as (Hs & Hp & Ho & _).
  destruct (Hk r w1) as (Hs' & Hp' & Ho' & _).
  rewrite Hs', Hp', Ho', Hs, Hp, Ho. done.
Qed.

(** The answer that follows a hook changes nothing but [sent]. *)
Lemma answer_onlySent {A} id (encode : option (A -> Json)) (r : Result A)
    (w1 : Engine E) :
  onlySent w1
    match r with
    | Ok a => match encode with Some f => reply id (f a) w1 | None => w1 end
    | Failed code message => reject id code message w1
    end.
Proof.
  destruct r as [a|code message]; [|apply reject_onlySent].
  destruct encode; [apply reply_onlySent | apply onlySent_refl].
Qed.

Lemma kept_stepped h id args (w w' : Engine E) :
  serverAfter codec h id args (server w) = server w ->
  server w' = server w /\ (P (object w) -> P (object w')) /\
  phase w' = phase w ->
  stepped P codec h id args w w'.
Proof.
  intros Hsame (Hs & Ho & Hp). unfold stepped. rewrite Hsame.
  repeat split; auto.
Qed.

Lemma applyContentChanges_keeps u v changes w r w1 :
  applyContentChanges hooks u v changes w = (r, w1) ->
  server w1 = server w /\ (P (object w) -> P (object w1)) /\
  phase w1 = phase w.
Proof.
  revert w. induction changes as [|c changes IH]; intros w; cbn.
  - intros [= <- <-]. by repeat split.
  - destruct (callHook _ _ w) as [r0 w0] eqn:Hc.
    apply callHook_frame in Hc as (Hs & Hp & Ho & _).
    assert (P (object w) -> P (object w0)) as Hobj.
    { intros Pw. rewrite Ho.
      destruct (HP _ Pw) as (_ & _ & _ & _ & Hfull & _ & Hrange & _).
      destruct c; [apply Hfull | apply Hrange]. }
    destruct r0 as [[]|code msg].
    + intros Hrest. apply IH in Hrest as (-> & Hobj' & ->).
      repeat split; auto.
    + intros [= <- <-]. repeat split; auto.
Qed.

(** The three position queries at once. *)
Lemma positionQuery_keeps {A} name (hook : DocumentPosition -> Hook E A)
    encode id args (w : Engine E) :
  (forall pos, P (object w) -> P (hook pos (object w)).1.2) ->
  let w' := positionQuery codec name hook encode id args w in
  server w' = server w /\ (P (object w) -> P (object w')) /\
  phase w' = phase w.
Proof.
  intros Hh. unfold positionQuery.
  destruct (decodeDocumentPosition codec args) as [pos|].
  - apply (callHook_then name (hook pos)
             (fun r w1 => match r with
                          | Ok a => reply id (encode a) w1
                          | Failed code message => reject id code message w1
                          end)); [apply Hh|].
    intros r w1. apply (answer_onlySent id (Some encode)).
  - apply onlySent_keeps, reject_onlySent.
Qed.

Lemma invoke_stepped h id args w :
  stepped P codec h id args w (invoke hooks codec h id args w).
Proof.
  destruct h; cbn [invoke].
  - (* initialize: the phase moves to pending when the hook succeeds *)
    unfold stepped, run_handle_initializeRequest. cbn [serverAfter].
    destruct (phase w) eqn:Hph;
      [| destruct (onlySent_keeps _ _ (reject_onlySent id InvalidRequest
           "initialize was already requested" w)) as (-> & Hk & ->); auto ..].
    destruct (decodeInitialize codec args) as [[root folders]|];
      [| destruct (onlySent_keeps _ _ (reject_onlySent id InvalidParams
           "invalid initialize parameters" w)) as (-> & Hk & ->); auto].
    destruct (callHook _ _ w) as [r w1] eqn:Hc.
    apply callHook_frame in Hc as (Hs & Hp & Ho & _).
    assert (P (object w) -> P (object w1)) as Hobj.
    { intros Pw. rewrite Ho. by apply (HP _ Pw). }
    destruct r as [sid|code msg].
    + destruct (onlySent_keeps _ _
        (reply_onlySent id (encodeServerId codec sid)
           (setPhase InitializePending w1))) as (-> & Hk & ->).
      cbn. repeat split; auto.
    + destruct (onlySent_keeps _ _ (reject_onlySent id code msg w1))
        as (-> & Hk & ->).
      repeat split; auto; try (left; congruence).
  - (* exit *)
    unfold stepped. cbn. repeat split; auto.
  - (* didChangeConfiguration: the trace level, then the hook *)
    unfold stepped, run_handle_workspace_didChangeConfiguration.
    cbn [serverAfter].
    set (w0 := match decodeTrace codec args with
               | Some t => setServer (assignTrace t (server w)) w
               | None => w
               end).
    assert (server w0 = match decodeTrace codec args with
                        | Some t => assignTrace t (server w)
                        | None => server w end
            /\ object w0 = object w /\ phase w0 = phase w) as (Hs0 & Ho0 & Hp0).
    { unfold w0. by destruct (decodeTrace codec args). }
    destruct (callHook_then Hook_changeConfiguration
                (changeConfiguration hooks args)
                (fun r w1 => match r with
                             | Ok _ => w1
                             | Failed code message => reject id code message w1
                             end) w0) as (Hs & Ho & Hp).
    { rewrite Ho0. intros Pw. by apply (HP _ Pw). }
    { intros r w1. apply (answer_onlySent id None). }
    cbv zeta in Hs, Ho, Hp. rewrite Hs, Hp, Hs0, Hp0. rewrite Ho0 in Ho.
    repeat split; auto; try by destruct (decodeTrace codec args).
  - (* didOpen *)
    apply kept_stepped; [done|]. unfold run_handle_textDocument_didOpen.
    destruct (decodeDidOpen codec args) as [[[[u l] v] c]|];
      [| apply onlySent_keeps, reject_onlySent].
    apply (callHook_then Hook_documentOpened (documentOpened hooks u l v c)
             (fun r w1 => match r with
                          | Ok _ => w1
                          | Failed code message => reject id code message w1
                          end)).
    + intros Pw. by apply (HP _ Pw).
    + intros r w1. apply (answer_onlySent id None).
  - (* didChange: the changes, then the notice *)
    apply kept_stepped; [done|]. unfold run_handle_textDocument_didChange.
    destruct (decodeDidChange codec args) as [[[u v] changes]|];
      [| apply onlySent_keeps, reject_onlySent].
    destruct (applyContentChanges hooks u v changes w) as [r w1] eqn:Hc.
    apply applyContentChanges_keeps in Hc as (Hs & Hobj & Hp).
    destruct r as [[]|code msg].
    + destruct (callHook_then Hook_documentContentUpdated
                  (documentContentUpdated_notice hooks u)
                  (fun r w2 => match r with
                               | Ok _ => w2
                               | Failed code message =>
                                   reject id code message w2
                               end) w1) as (Hs2 & Ho2 & Hp2).
      { intros Pw. by apply (HP _ Pw). }
      { intros r w2. apply (answer_onlySent id None). }
      cbv zeta in Hs2, Ho2, Hp2. rewrite Hs2, Hp2, Hs, Hp. auto.
    + destruct (onlySent_keeps _ _ (reject_onlySent id code msg w1))
        as (-> & Hk & ->).
      auto.
  - (* didClose *)
    apply kept_stepped; [done|]. unfold run_handle_textDocument_didClose.
    destruct (decodeDidClose codec args) as [u|];
      [| apply onlySent_keeps, reject_onlySent].
    apply (callHook_then Hook_documentClosed (documentClosed hooks u)
             (fun r w1 => match r with
                          | Ok _ => w1
                          | Failed code message => reject id code message w1
                          end)).
    + intros Pw. by apply (HP _ Pw).
    + intros r w1. apply (answer_onlySent id None).
  - (* definition *)
    apply kept_stepped; [done|]. apply positionQuery_keeps.
    intros pos Pw. by apply (HP _ Pw).
  - (* highlight *)
    apply kept_stepped; [done|]. apply positionQuery_keeps.
    intros pos Pw. by apply (HP _ Pw).
  - (* references *)
    apply kept_stepped; [done|]. apply positionQuery_keeps.
    intros pos Pw. by apply (HP _ Pw).
  - (* initialized: the phase moves from pending to done *)
    unfold stepped, run_handle_initialized. cbn [serverAfter].
    destruct (callHook _ _ w) as [r w1] eqn:Hc.
    apply callHook_frame in Hc as (Hs & Hp & Ho & _).
    assert (P (object w) -> P (object w1)) as Hobj.
    { intros Pw. rewrite Ho. by apply (HP _ Pw). }
    destruct r as [[]|code msg].
    + destruct (phase w1) eqn:Hph1; cbn; repeat split; auto;
        first [ left; congruence | right; right; repeat split; congruence ].
    + destruct (onlySent_keeps _ _ (reject_onlySent id code msg w1))
        as (-> & Hk & ->).
      repeat split; auto; try (left; congruence).
  - (* shutdown: taken as a request only *)
    unfold stepped, run_handle_shutdown. cbn [serverAfter].
    destruct (isRequest id); [|by repeat split; auto].
    destruct (onlySent_keeps _ _
      (reply_onlySent id JNull (setServer (requestShutdown (server w)) w)))
      as (-> & Hk & ->).
    cbn. repeat split; auto.
Qed.
End ObjectInvariant.

End EngineFacts.

(* ===================================================================== *)
(** * 11. Routing                                                          *)
(* ===================================================================== *)

Lemma hooksPreserve_True {E} (hooks : ServerHooks E) :
  hooksPreserve (fun _ => True) hooks.
Proof. intros e _. by repeat split. Qed.

Section Routing.
Context {E : Type}.
Variable hooks : ServerHooks E.
Variable codec : ParamCodec.


Lemma handleMessage_unknown (w : Engine E) m :
  lifecycleCheck w m = None ->
  m_handlers (server w) !! msg_method m = None ->
  handleMessage hooks codec m w
  = reject (msg_id m) MethodNotFound "unknown method" w.
Proof. unfold handleMessage. by intros -> ->. Qed.


(** A message is refused, found unknown, or routed to its handler. *)
Lemma handleMessage_cases (w : Engine E) m :
  onlySent w (handleMessage hooks codec m w) \/
  exists h,
    lifecycleCheck w m = None /\
    m_handlers (server w) !! msg_method m = Some h /\
    handleMessage hooks codec m w
    = invoke hooks codec h (msg_id m) (msg_params m) w.
Proof.
  unfold handleMessage.
  destruct (lifecycleCheck w m) as [code|]; [left; apply reject_onlySent|].
  destruct (m_handlers (server w) !! msg_method m) as [h|];
    [right; eauto | left; apply reject_onlySent].
Qed.

Lemma serverAfter_handlers h id args s :
  m_handlers (serverAfter codec h id args s) = m_handlers s.
Proof.
  destruct h; cbn; try reflexivity.
  - by destruct (decodeTrace codec args).
  - by destruct (isRequest id).
Qed.

Lemma handleMessage_handlers (w : Engine E) m :
  m_handlers (server (handleMessage hooks codec m w)) = m_handlers (server w).
Proof.
  destruct (handleMessage_cases w m) as [(-> & _)|(h & _ & _ & ->)]; [done|].
  destruct (invoke_stepped hooks codec _ (hooksPreserve_True hooks)
              h (msg_id m) (msg_params m) w) as (-> & _).
  apply serverAfter_handlers.
Qed.

Lemma handleMessages_snoc ms m (w : Engine E) :
  handleMessages hooks codec (ms ++ [m]) w
  = handleMessage hooks codec m (handleMessages hooks codec ms w).
Proof. unfold handleMessages. by rewrite foldl_snoc. Qed.

Lemma handleMessages_handlers ms (w : Engine E) :
  m_handlers (server (handleMessages hooks codec ms w)) = m_handlers (server w).
Proof.
  induction ms as [|m ms IH] using rev_ind; [done|].
  rewrite handleMessages_snoc, handleMessage_handlers. apply IH.
Qed.

Lemma loop_handlers maxF inputs (l : Loop) :
  m_handlers (server (world (loop hooks codec maxF inputs l).2))
  = m_handlers (server (world l)).
Proof.
  revert l. induction inputs as [|r inputs IH]; intros l; cbn.
  - by destruct (loopRunning maxF l).
  - destruct (loopRunning maxF l); [|done].
    rewrite IH. destruct r as [m|id code]; cbn.
    + apply handleMessage_handlers.
    + by destruct (reject_onlySent id code "unreadable message" (world l))
        as (-> & _).
Qed.
End Routing.

(** ** The dispatch table *)

Lemma registerAll_snoc entries entry :
  registerAll (entries ++ [entry]) = <[entry.1 := entry.2]> (registerAll entries).
Proof. unfold registerAll. by rewrite foldl_snoc. Qed.

Lemma registerAll_lookup_Some entries name h :
  registerAll entries !! name = Some h -> (name, h) ∈ entries.
Proof.
  induction entries as [|[k v] entries IH] using rev_ind.
  - unfold registerAll. cbn. by rewrite lookup_empty.
  - rewrite registerAll_snoc. cbn. rewrite lookup_insert.
    case_decide as Hk.
    + intros [= ->]. subst k. apply elem_of_app. right. by left.
    + intros Hl. apply elem_of_app. left. by apply IH.
Qed.

Lemma registerAll_lookup_None entries name :
  registerAll entries !! name = None <-> name ∉ entries.*1.
Proof.
  induction entries as [|[k v] entries IH] using rev_ind.
  - unfold registerAll. cbn. rewrite lookup_empty. split; [|done].
    intros _. apply not_elem_of_nil.
  - rewrite registerAll_snoc, fmap_app. cbn. rewrite lookup_insert.
    rewrite not_elem_of_app, <- IH. case_decide as Hk.
    + subst k. split; [done|]. intros [_ Hn]. exfalso. apply Hn. by left.
    + split.
      * intros Hl. split; [done|]. intros Hin.
        apply list_elem_of_singleton in Hin. congruence.
      * by intros [Hl _].
Qed.

Lemma registerAll_last_wins entries name h later :
  name ∉ later.*1 ->
  registerAll (entries ++ (name, h) :: later) !! name = Some h.
Proof.
  induction later as [|[k v] later IH] using rev_ind; intros Hfresh.
  - rewrite registerAll_snoc. cbn. apply lookup_insert_eq.
  - rewrite fmap_app, not_elem_of_app in Hfresh. destruct Hfresh as [Hl Hk].
    cbn in Hk. rewrite app_comm_cons, app_assoc, registerAll_snoc. cbn.
    rewrite lookup_insert_ne; [by apply IH|].
    intros ->. apply Hk. by left.
Qed.

(** C8.  The dispatch table is the one built at construction and message
    handling never changes it, neither a single [handleMessage] nor a whole
    [run]; a lookup succeeds only for a method name that was registered
    under exactly that string and fails exactly for the strings that were
    not; the table holds each method name once; and of two registrations of
    one name the last wins. *)
Theorem dispatch_table_fixed :
  (forall (E : Type) (e : E),
      m_handlers (server (Engine_new e)) = registerAll standardHandlers) /\
  (forall (E : Type) (hooks : ServerHooks E) codec m (w : Engine E),
      m_handlers (server (handleMessage hooks codec m w)) = m_handlers (server w)) /\
  (forall (E : Type) (hooks : ServerHooks E) codec maxF inputs (w : Engine E),
      m_handlers (server (world (run hooks codec maxF inputs w).2))
      = m_handlers (server w)) /\
  (forall entries name h,
      registerAll entries !! name = Some h -> (name, h) ∈ entries) /\
  (forall entries name,
      registerAll entries !! name = None <-> name ∉ entries.*1) /\
  (forall entries, NoDup (map_to_list (registerAll entries)).*1) /\
  (forall entries name h later,
      name ∉ later.*1 ->
      registerAll (entries ++ (name, h) :: later) !! name = Some h).
Proof.
  split; [done|].
  split; [intros; apply handleMessage_handlers|].
  split; [intros; unfold run; by rewrite loop_handlers|].
  split; [apply registerAll_lookup_Some|].
  split; [apply registerAll_lookup_None|].
  split; [intros; apply NoDup_fst_map_to_list|].
  apply registerAll_last_wins.
Qed.

(** The table of the constructor at work: exact names are found, a prefix
    of a name or an unknown name is not, and re-registering a name
    replaces its handler. *)
Example dispatch_table_lookups :
  registerAll standardHandlers !! "textDocument/didOpen"
    = Some handle_textDocument_didOpen /\
  registerAll standardHandlers !! "textDocument/did" = None /\
  registerAll standardHandlers !! "foo/bar" = None /\
  registerAll (standardHandlers ++ [("exit", handle_shutdown)]) !! "exit"
    = Some handle_shutdown.
Proof. by vm_compute. Qed.

(* ===================================================================== *)
(** * 12. The trace level                                                  *)
(* ===================================================================== *)

(** C10.  A freshly constructed [Server] has trace level [Off]; [trace()]
    returns the stored level and leaves the server as it was; and handling
    a message changes the stored level only when the message is routed to
    the configuration handler and its payload carries the new level. *)
Theorem trace_level_accessor :
  (forall handlers, m_trace (Server_init handlers) = Off) /\
  (forall (E : Type) (e : E), (Server_trace (server (Engine_new e))).1 = Off) /\
  (forall s, Server_trace s = (m_trace s, s)) /\
  (forall (E : Type) (hooks : ServerHooks E) codec m (w : Engine E),
      m_trace (server (handleMessage hooks codec m w)) <> m_trace (server w) ->
      m_handlers (server w) !! msg_method m
        = Some handle_workspace_didChangeConfiguration /\
      decodeTrace codec (msg_params m)
        = Some (m_trace (server (handleMessage hooks codec m w)))).
Proof.
  split; [done|]. split; [done|]. split; [done|].
  intros E hooks codec m w Hne.
  destruct (handleMessage_cases hooks codec w m)
    as [(Hs & _)|(h & _ & Hl & Heq)].
  { by rewrite Hs in Hne. }
  rewrite Heq in Hne |- *.
  destruct (invoke_stepped hooks codec _ (hooksPreserve_True hooks)
              h (msg_id m) (msg_params m) w) as (Hs & _).
  rewrite Hs in Hne |- *.
  destruct h; cbn in Hne |- *; try done.
  - destruct (decodeTrace codec (msg_params m)); [done|]. by cbn in Hne.
  - by destruct (isRequest (msg_id m)).
Qed.

(** The configuration handler assigning the level, on a running server. *)
Lemma trace_level_accessor_witness :
  let w := handleMessages minimalServer sampleCodec
             [ {| msg_id := IdInt 1; msg_method := "initialize";
                  msg_params := JString "file:///w" |} ] (Engine_new tt) in
  let m := {| msg_id := IdAbsent;
              msg_method := "workspace/didChangeConfiguration";
              msg_params := JString "verbose" |} in
  m_trace (server w) = Off /\
  m_trace (server (handleMessage minimalServer sampleCodec m w)) = Verbose /\
  m_handlers (server w) !! msg_method m
    = Some handle_workspace_didChangeConfiguration.
Proof.
  cbv zeta. split; [by vm_compute|]. split; [by vm_compute|].
  refine (proj1 (proj2 (proj2 (proj2 trace_level_accessor))
                   unit minimalServer sampleCodec _ _ _)).
  by vm_compute.
Defined.

(* ===================================================================== *)
(** * 13. Before [initialize]                                              *)
(* ===================================================================== *)

Section Uninitialized.
Context {E : Type}.
Variable hooks : ServerHooks E.
Variable codec : ParamCodec.




End Uninitialized.



(** Before [initialize] the [exit] notification is taken, while a request
    named exit, a request with an unknown method and an [initialize] sent
    without an id are not: the requests are refused, the notification is
    dropped. *)
Example uninitialized_corner_cases :
  let fresh := Engine_new tt in
  let after m := handleMessage minimalServer sampleCodec m fresh in
  m_exitRequested (server (after (message IdAbsent "exit"))) = true /\
  sent (after (message IdAbsent "exit")) = [] /\
  after (message (IdInt 1) "exit")
  = send (ErrorReply (IdInt 1) ServerNotInitialized
            "request refused in this state") fresh /\
  after (message (IdInt 7) "foo/bar")
  = send (ErrorReply (IdInt 7) ServerNotInitialized
            "request refused in this state") fresh /\
  after {| msg_id := IdAbsent; msg_method := "initialize";
           msg_params := JString "file:///w" |} = fresh.
Proof. cbv zeta. repeat split; by vm_compute. Qed.

(* ===================================================================== *)
(** * 14. Unknown methods                                                  *)
(* ===================================================================== *)

(** A message that passes the lifecycle check and whose method is not in
    the dispatch table: a request is answered [MethodNotFound] with its
    id, a notification is dropped; nothing else changes. *)
Lemma unknown_method_answer {E} (hooks : ServerHooks E) (codec : ParamCodec)
    (w : Engine E) (m : Message) :
  lifecycleCheck w m = None ->
  m_handlers (server w) !! msg_method m = None ->
  handleMessage hooks codec m w
  = (if isRequest (msg_id m)
     then send (ErrorReply (msg_id m) MethodNotFound "unknown method") w
     else w).
Proof.
  intros Hc Hl. rewrite handleMessage_unknown by done.
  unfold reject, Server_error. by destruct (isRequest (msg_id m)).
Qed.

(** The method "foo/bar" with id 7 on a server that has been initialised. *)
Example unknown_method_scenario :
  let w := handleMessages minimalServer sampleCodec
             [ {| msg_id := IdInt 1; msg_method := "initialize";
                  msg_params := JString "file:///w" |};
               message IdAbsent "initialized" ] (Engine_new tt) in
  lifecycle w = Initialized /\
  handleMessage minimalServer sampleCodec (message (IdInt 7) "foo/bar") w
  = send (ErrorReply (IdInt 7) MethodNotFound "unknown method") w.
Proof. cbv zeta. split; by vm_compute. Qed.

(* ===================================================================== *)
(** * 15. The main loop, [shutdown] and [exit]                             *)
(* ===================================================================== *)


Section LoopFacts.
Context {E : Type}.
Variable hooks : ServerHooks E.
Variable codec : ParamCodec.
Variable maxF : nat.

Local Abbreviation std := (registerAll standardHandlers).











End LoopFacts.






(** The same session, run: the refused request is answered with an error
    and [run] reports normal termination. *)
Example shutdown_session :
  let out := run minimalServer sampleCodec 10
               [ Received {| msg_id := IdInt 1; msg_method := "initialize";
                             msg_params := JString "file:///w" |};
                 Received (message (IdInt 2) "shutdown");
                 Received (message (IdInt 3) "textDocument/references");
                 Received (message IdAbsent "exit") ] (Engine_new tt) in
  out.1 = Returned true /\
  sent (world out.2)
  = [ Reply (IdInt 1) (JString "minimal"); Reply (IdInt 2) JNull;
      ErrorReply (IdInt 3) InvalidRequest "request refused in this state" ].
Proof. by vm_compute. Qed.

(** [exit] without a [shutdown] before it: [run] reports abnormal
    termination. *)
Example exit_without_shutdown :
  (run minimalServer sampleCodec 10
     [ Received {| msg_id := IdInt 1; msg_method := "initialize";
                   msg_params := JString "file:///w" |};
       Received (message IdAbsent "exit") ] (Engine_new tt)).1
  = Returned false.
Proof. by vm_compute. Qed.



(** Three failed reads in a row with threshold 2: [run] gives up. *)
Example failures_exceed_threshold :
  let out := run minimalServer noParams 2
               [ ReadFailed IdAbsent ParseError;
                 ReadFailed (IdInt 4) InvalidRequest;
                 ReadFailed IdAbsent ParseError;
                 Received (message (IdInt 5) "initialize") ] (Engine_new tt) in
  out.1 = Returned false /\ failureCount out.2 = 3 /\
  sent (world out.2) = [ErrorReply (IdInt 4) InvalidRequest "unreadable message"].
Proof. by vm_compute. Qed.

(** A message that was read resets the counter: two failures, a message,
    two failures stay below threshold 2. *)
Example failures_reset_by_message :
  let out := run minimalServer noParams 2
               [ ReadFailed IdAbsent ParseError; ReadFailed IdAbsent ParseError;
                 Received (message IdAbsent "initialized");
                 ReadFailed IdAbsent ParseError; ReadFailed IdAbsent ParseError ]
               (Engine_new tt) in
  out.1 = AwaitingInput /\ failureCount out.2 = 2.
Proof. by vm_compute. Qed.


(* ===================================================================== *)
(** * 16. The document store                                               *)
(* ===================================================================== *)

Section StoreFacts.
Implicit Types store : gmap string vfs.File.

Lemma withVfs_same (ls : LanguageServer) : withVfs (m_vfs ls) ls = ls.
Proof. by destruct ls. Qed.

(** A column that has an offset on the line [s] starts with is at most
    the length of that line. *)
Lemma columnOffset_bound s ch k :
  vfs.columnOffset s ch = Some k ->
  ch <= vfs.utf16Length (hd EmptyString (vfs.splitLines s)).
Proof.
  revert ch k. induction s as [|c rest IH]; intros ch k.
  - destruct ch; [cbn; lia | done].
  - destruct ch as [|ch]; [cbn; lia|].
    cbn [vfs.columnOffset vfs.splitLines].
    destruct (vfs.isNewline c); [done|].
    destruct (vfs.utf16Units c <=? S ch) eqn:Hle; [|done].
    apply Nat.leb_le in Hle.
    destruct (vfs.columnOffset rest (S ch - vfs.utf16Units c)) as [k'|] eqn:Hk;
      [|done].
    intros _. apply IH in Hk. cbn [hd vfs.utf16Length]. lia.
Qed.

(** A position that has an offset lies within the content bounds. *)
Lemma offsetOf_withinBounds s ln ch k :
  vfs.offsetOf s ln ch = Some k ->
  vfs.withinBounds s {| line := ln; character := ch |} = true.
Proof.
  unfold vfs.withinBounds. cbn [line character].
  revert ln k. induction s as [|c rest IH]; intros ln k.
  - destruct ln; [|done]. destruct ch; [done|done].
  - destruct ln as [|ln].
    + cbn [vfs.offsetOf]. intros Hk. apply columnOffset_bound in Hk.
      destruct (vfs.splitLines (String c rest)) as [|l ls] eqn:Hl.
      * cbn in Hl. by destruct (vfs.isNewline c).
      * cbn [hd] in Hk. cbn. by apply Nat.leb_le.
    + cbn [vfs.offsetOf vfs.splitLines].
      destruct (vfs.offsetOf rest (if vfs.isNewline c then ln else S ln) ch)
        as [k'|] eqn:Hk; [|done].
      intros _. apply IH in Hk.
      destruct (vfs.isNewline c); [done|].
      cbn [lookup list_lookup].
      by destruct (vfs.splitLines rest).
Qed.

(** A range with an end outside the content bounds has no offsets. *)
Lemma rangeOffsets_out_of_bounds s r :
  vfs.rangeWithinBounds s r = false -> vfs.rangeOffsets s r = None.
Proof.
  unfold vfs.rangeWithinBounds, vfs.rangeOffsets, vfs.positionOffset.
  intros Hout.
  destruct (vfs.offsetOf s (line (range_start r)) (character (range_start r)))
    as [a|] eqn:Ha; [|done].
  destruct (vfs.offsetOf s (line (range_end r)) (character (range_end r)))
    as [b|] eqn:Hb; [|done].
  apply offsetOf_withinBounds in Ha, Hb.
  destruct (range_start r), (range_end r). cbn in Ha, Hb.
  by rewrite Ha, Hb in Hout.
Qed.

Lemma applyRange_invalid u v r text store f :
  vfs.get u store = Some f ->
  vfs.rangeOffsets (vfs.content f) r = None ->
  vfs.applyRange u v r text store = (vfs.Fail vfs.InvalidRange, store).
Proof. unfold vfs.get, vfs.applyRange. by intros -> ->. Qed.

(** No store operation removes a document. *)
Lemma insert_present store (u k : URI) (f : vfs.File) :
  is_Some (store !! u) -> is_Some (<[k := f]> store !! u).
Proof.
  intros Hu. rewrite lookup_insert. by case_decide.
Qed.

Lemma open_present u k lang v text store :
  is_Some (store !! u) -> is_Some ((vfs.open k lang v text store).2 !! u).
Proof. apply insert_present. Qed.

Lemma applyFull_present u k v text store :
  is_Some (store !! u) -> is_Some ((vfs.applyFull k v text store).2 !! u).
Proof.
  unfold vfs.applyFull. destruct (store !! k); [apply insert_present|done].
Qed.

Lemma applyRange_present u k v r text store :
  is_Some (store !! u) -> is_Some ((vfs.applyRange k v r text store).2 !! u).
Proof.
  unfold vfs.applyRange. destruct (store !! k) as [f|]; [|done].
  destruct (vfs.rangeOffsets (vfs.content f) r) as [[a b]|];
    [apply insert_present|done].
Qed.

Lemma close_present u k store :
  is_Some (store !! u) -> is_Some ((vfs.close k store).2 !! u).
Proof.
  unfold vfs.close. destruct (store !! k); [apply insert_present|done].
Qed.

Lemma storeHook_object op (ls : LanguageServer) :
  m_vfs (storeHook op ls).1.2 = (op (m_vfs ls)).2.
Proof. unfold storeHook. by destruct (op (m_vfs ls)) as [[|err] store']. Qed.

Lemma LanguageServer_hooks_retain (analysis : Analysis) (u : URI) :
  hooksPreserve (fun ls => is_Some (m_vfs ls !! u))
    (LanguageServer_vtable analysis).
Proof.
  intros ls Hu. cbn.
  unfold LanguageServer_documentOpened,
    LanguageServer_documentContentUpdated_full,
    LanguageServer_documentContentUpdated_range,
    LanguageServer_documentClosed.
  repeat split; intros; rewrite ?storeHook_object;
    auto using insert_present, open_present, applyFull_present,
      applyRange_present, close_present.
Qed.
End StoreFacts.

(** C5.  For a document in the store (open or closed) and a range patch
    whose range exceeds the current content bounds (an end of it names a
    line the text does not have, or a column beyond the length of its
    line in UTF-16 code units), [applyRange] fails with [InvalidRange] and gives back the store it received, so the
    content is the same text; the range-patch hook of the language server
    fails with the [InvalidRange] error code and leaves the object as it
    was; and a [didChange] carrying such a patch changes nothing in the
    object, its only effect being the [InvalidRange] error response when
    the message has an id. *)
Theorem range_patch_all_or_nothing :
  forall (analysis : Analysis) (codec : ParamCodec) (ls : LanguageServer)
         (u : URI) (f : vfs.File) (v : option Z) (r : Range) (text : string),
    vfs.get u (m_vfs ls) = Some f ->
    vfs.rangeWithinBounds (vfs.content f) r = false ->
    vfs.applyRange u v r text (m_vfs ls) = (vfs.Fail vfs.InvalidRange, m_vfs ls) /\
    vfs.content <$> vfs.get u (vfs.applyRange u v r text (m_vfs ls)).2
      = Some (vfs.content f) /\
    LanguageServer_documentContentUpdated_range u v r text ls
      = (Failed InvalidRange "document store error", ls, []) /\
    (forall (w : Engine LanguageServer) id args,
        object w = ls ->
        decodeDidChange codec args = Some (u, v, [RangeChange r text]) ->
        let w' := run_handle_textDocument_didChange
                    (LanguageServer_vtable analysis) codec id args w in
        object w' = ls /\ server w' = server w /\
        sent w' = if isRequest id
                  then sent w ++ [ErrorReply id InvalidRange "document store error"]
                  else sent w).
Proof.
  intros analysis codec ls u f v r text Hget Hout.
  pose proof (applyRange_invalid u v r text _ f Hget
                (rangeOffsets_out_of_bounds _ _ Hout)) as Happly.
  assert (LanguageServer_documentContentUpdated_range u v r text ls
          = (Failed InvalidRange "document store error", ls, [])) as Hhook.
  { unfold LanguageServer_documentContentUpdated_range, storeHook.
    rewrite Happly. cbn. by rewrite withVfs_same. }
  split; [done|]. split; [rewrite Happly; cbn [snd]; by rewrite Hget|]. split; [done|].
  intros w id args Hobj Hdec w'. unfold w', run_handle_textDocument_didChange.
  rewrite Hdec. cbn [applyContentChanges].
  unfold callHook. cbn [documentContentUpdated_range LanguageServer_vtable].
  rewrite Hobj, Hhook. cbn [foldl].
  unfold reject, Server_error. destruct (isRequest id); cbn; by rewrite ?Hobj.
Qed.

(** A patch on line 1 of the one-line document "a": refused, the store is
    the same. *)
Lemma range_patch_all_or_nothing_witness :
  vfs.applyRange "file:///a.sol" (Some 2%Z) (lineRange 0 0 1 0) "zz"
    (m_vfs storeWithA)
  = (vfs.Fail vfs.InvalidRange, m_vfs storeWithA).
Proof.
  refine (proj1 (range_patch_all_or_nothing
            noAnalysis noParams storeWithA "file:///a.sol"
            {| vfs.uri := "file:///a.sol"; vfs.languageId := "solidity";
               vfs.version := Some 1%Z; vfs.content := "a";
               vfs.closed := false |}
            (Some 2%Z) (lineRange 0 0 1 0) "zz" _ _)).
  - by vm_compute.
  - by vm_compute.
Defined.

(** The scenario of the spec: replacing offsets 0..1 of "a" with "ab"
    stores "ab", and a later [get] returns the same text. *)
Example range_patch_scenario :
  let out := vfs.applyRange "file:///a.sol" None (lineRange 0 0 0 1) "ab"
               (m_vfs storeWithA) in
  out.1 = vfs.Done /\
  vfs.content <$> vfs.get "file:///a.sol" out.2 = Some "ab" /\
  vfs.version <$> vfs.get "file:///a.sol" out.2 = Some (Some 1%Z).
Proof. by vm_compute. Qed.

(** Columns count UTF-16 code units.  In the text "e-acute, emoji" (two
    bytes, then four bytes) the line is three code units long: column 1
    is byte 2, column 3 is byte 6, column 2 falls inside the surrogate
    pair, and column 4 is out of bounds although the text has six bytes.
    A patch at columns 50..100 of "a" is refused. *)
Example range_patch_columns :
  let text := String "195" (String "169" (String "240" (String "159"
                (String "152" (String "128" EmptyString))))) in
  vfs.utf16Length text = 3 /\
  vfs.offsetOf text 0 1 = Some 2 /\
  vfs.offsetOf text 0 3 = Some 6 /\
  vfs.offsetOf text 0 2 = None /\
  vfs.withinBounds text {| line := 0; character := 3 |} = true /\
  vfs.withinBounds text {| line := 0; character := 4 |} = false /\
  vfs.offsetOf text 0 4 = None /\
  vfs.applyRange "file:///a.sol" None (lineRange 0 50 0 100) "zz"
    (m_vfs storeWithA)
  = (vfs.Fail vfs.InvalidRange, m_vfs storeWithA).
Proof. by vm_compute. Qed.

(** C6.  [didOpen] puts the document into the store; [didClose] keeps it
    there with the same content and version, marked closed; and no
    sequence of messages, and no run of the main loop, removes a document
    that is in the store: [get] on its URI still finds it. *)
Theorem documents_are_retained :
  forall (analysis : Analysis) (codec : ParamCodec),
    (forall u lang v text ls,
        vfs.get u (m_vfs (LanguageServer_documentOpened u lang v text ls).1.2)
        = Some {| vfs.uri := u; vfs.languageId := lang; vfs.version := Some v;
                  vfs.content := text; vfs.closed := false |}) /\
    (forall u ls f,
        vfs.get u (m_vfs ls) = Some f ->
        vfs.get u (m_vfs (LanguageServer_documentClosed u ls).1.2)
        = Some {| vfs.uri := vfs.uri f; vfs.languageId := vfs.languageId f;
                  vfs.version := vfs.version f; vfs.content := vfs.content f;
                  vfs.closed := true |}) /\
    (forall ms (w : Engine LanguageServer) u,
        is_Some (vfs.get u (m_vfs (object w))) ->
        is_Some (vfs.get u (m_vfs (object
          (handleMessages (LanguageServer_vtable analysis) codec ms w))))) /\
    (forall maxF inputs (w : Engine LanguageServer) u,
        is_Some (vfs.get u (m_vfs (object w))) ->
        is_Some (vfs.get u (m_vfs (object (world
          (run (LanguageServer_vtable analysis) codec maxF inputs w).2))))).
Proof.
  intros analysis codec.
  assert (forall m (w : Engine LanguageServer) u,
             is_Some (m_vfs (object w) !! u) ->
             is_Some (m_vfs (object
               (handleMessage (LanguageServer_vtable analysis) codec m w)) !! u))
    as Hstep.
  { intros m w u Hu.
    destruct (handleMessage_cases (LanguageServer_vtable analysis) codec w m)
      as [(_ & _ & -> & _)|(h & _ & _ & ->)]; [done|].
    by apply (invoke_stepped _ codec _
                (LanguageServer_hooks_retain analysis u)). }
  split; [|split; [|split]].
  - intros u lang v text ls.
    unfold LanguageServer_documentOpened. rewrite storeHook_object.
    unfold vfs.get, vfs.open. cbn. apply lookup_insert_eq.
  - intros u ls f Hget.
    unfold LanguageServer_documentClosed. rewrite storeHook_object.
    unfold vfs.get, vfs.close in *. rewrite Hget. cbn. apply lookup_insert_eq.
  - intros ms w u Hu. unfold vfs.get in *.
    induction ms as [|m ms IH] using rev_ind; [done|].
    rewrite handleMessages_snoc. by apply Hstep.
  - intros maxF inputs w u Hu. unfold vfs.get in *. unfold run.
    assert (forall l : Loop (E:=LanguageServer),
               is_Some (m_vfs (object (world l)) !! u) ->
               is_Some (m_vfs (object (world
                 (loop (LanguageServer_vtable analysis) codec maxF inputs l).2))
                          !! u)) as Hloop.
    { induction inputs as [|r inputs IH]; intros l Hl; cbn.
      - by destruct (loopRunning maxF l).
      - destruct (loopRunning maxF l); [|done].
        apply IH. destruct r as [m|id code]; cbn.
        + by apply Hstep.
        + by destruct (reject_onlySent id code "unreadable message" (world l))
            as (_ & _ & -> & _). }
    by apply Hloop.
Qed.

(** A session on the language server: "a.sol" is opened and closed, then
    "b.sol" is opened and edited; "a.sol" is still found. *)
Lemma documents_are_retained_witness :
  let w := handleMessages (LanguageServer_vtable noAnalysis) sampleCodec
             [ {| msg_id := IdInt 1; msg_method := "initialize";
                  msg_params := JString "file:///w" |};
               {| msg_id := IdAbsent; msg_method := "textDocument/didOpen";
                  msg_params := JArray [JString "file:///a.sol"; JString "a"] |};
               {| msg_id := IdAbsent; msg_method := "textDocument/didClose";
                  msg_params := JString "file:///a.sol" |} ]
             (Engine_new LanguageServer_new) in
  let ms := [ {| msg_id := IdAbsent; msg_method := "textDocument/didOpen";
                 msg_params := JArray [JString "file:///b.sol"; JString "b"] |};
              {| msg_id := IdAbsent; msg_method := "textDocument/didChange";
                 msg_params := JArray [JString "file:///b.sol"; JString "bb"] |} ] in
  is_Some (vfs.get "file:///a.sol"
             (m_vfs (object (handleMessages (LanguageServer_vtable noAnalysis)
                               sampleCodec ms w)))).
Proof.
  cbv zeta.
  refine (proj1 (proj2 (proj2 (documents_are_retained noAnalysis sampleCodec)))
            _ _ "file:///a.sol" _).
  vm_compute. eauto.
Defined.

(** The same session, looked at: after the close "a.sol" has its text and
    version and is marked closed; "b.sol" has the edited text. *)
Example closed_document_is_kept :
  let w := handleMessages (LanguageServer_vtable noAnalysis) sampleCodec
             [ {| msg_id := IdInt 1; msg_method := "initialize";
                  msg_params := JString "file:///w" |};
               {| msg_id := IdAbsent; msg_method := "textDocument/didOpen";
                  msg_params := JArray [JString "file:///a.sol"; JString "a"] |};
               {| msg_id := IdAbsent; msg_method := "textDocument/didClose";
                  msg_params := JString "file:///a.sol" |};
               {| msg_id := IdAbsent; msg_method := "textDocument/didOpen";
                  msg_params := JArray [JString "file:///b.sol"; JString "b"] |};
               {| msg_id := IdAbsent; msg_method := "textDocument/didChange";
                  msg_params := JArray [JString "file:///b.sol"; JString "bb"] |} ]
             (Engine_new LanguageServer_new) in
  vfs.get "file:///a.sol" (m_vfs (object w))
  = Some {| vfs.uri := "file:///a.sol"; vfs.languageId := "solidity";
            vfs.version := Some 1%Z; vfs.content := "a"; vfs.closed := true |} /\
  vfs.content <$> vfs.get "file:///b.sol" (m_vfs (object w)) = Some "bb" /\
  hookCalls w = [Hook_initialize; Hook_documentOpened; Hook_documentClosed;
                 Hook_documentOpened; Hook_documentContentUpdated;
                 Hook_documentContentUpdated].
Proof. by vm_compute. Qed.

(* ===================================================================== *)
(** * 17. Further properties of the code in the headers                    *)
(* ===================================================================== *)

Section ReferenceBatchFacts.
Context {Declaration SourceUnit : Type}.
Variable declName : Declaration -> string.
Variable named :
  option Declaration -> string -> SourceUnit -> list DocumentHighlight.
Variable named_into :
  option Declaration -> string -> SourceUnit -> URI ->
  list Location -> list Location.

Lemma collectReferences_eq targets out :
  collectReferences declName named_into targets out
  = Some (foldl (intoStep declName named_into) out (presentTargets targets),
          (fun t => NameRead t.1) <$> presentTargets targets).
Proof.
  revert out. induction targets as [|[p [su u]] targets IH]; intros out.
  - reflexivity.
  - cbn [collectReferences]. destruct p as [d|]; cbn.
    + rewrite IH. reflexivity.
    + rewrite IH. reflexivity.
Qed.

Lemma collectHighlights_eq targets :
  collectHighlights declName named targets
  = Some (concat ((fun t => named (Some t.1) (declName t.1) t.2)
                    <$> presentTargets targets),
          (fun t => NameRead t.1) <$> presentTargets targets).
Proof.
  induction targets as [|[p su] targets IH].
  - reflexivity.
  - cbn [collectHighlights]. rewrite IH.
    destruct p as [d|]; cbn; by rewrite ?app_nil_r.
Qed.

Lemma presentTargets_idemp {T} (targets : list (option Declaration * T)) :
  presentTargets ((fun t => (Some t.1, t.2)) <$> presentTargets targets)
  = presentTargets targets.
Proof.
  induction targets as [|[[d|] x] targets IH]; cbn; [done | | done].
  f_equal. apply IH.
Qed.

Lemma foldl_intoStep_prefix ts out :
  appendsOnly named_into -> out `prefix_of` foldl (intoStep declName named_into) out ts.
Proof.
  intros Happ. revert out. induction ts as [|t ts IH]; intros out; cbn.
  - done.
  - etrans; [|apply IH]. apply Happ.
Qed.
End ReferenceBatchFacts.

(** X1.  When the overload that takes the name only appends to [_output],
    so does the output-parameter [findAllReferences], for a null and for a
    non-null pointer alike, and so does every series of calls on one
    vector: what was in [_output] before is a prefix of what is in it
    after, and no call fails. *)
Theorem collected_references_extend_output :
  forall (Declaration SourceUnit : Type) (declName : Declaration -> string)
         (named_into : option Declaration -> string -> SourceUnit -> URI ->
                       list Location -> list Location)
         (targets : list (option Declaration * (SourceUnit * URI)))
         (out : list Location),
    appendsOnly named_into ->
    exists res reads,
      collectReferences declName named_into targets out = Some (res, reads) /\
      out `prefix_of` res.
Proof.
  intros D SU declName named_into targets out Happ.
  rewrite collectReferences_eq. eexists _, _. split; [reflexivity|].
  by apply foldl_intoStep_prefix.
Qed.

(** A callee that appends the location it is asked about; two targets, the
    first of them null. *)
Lemma collected_references_extend_output_witness :
  let here := {| loc_uri := "file:///a.sol";
                 loc_range := {| range_start := {| line := 0; character := 0 |};
                                 range_end := {| line := 0; character := 1 |} |} |} in
  exists res reads,
    collectReferences (fun d : nat => "f")
      (fun _ _ (_ : unit) u out => out ++ [{| loc_uri := u; loc_range := loc_range here |}])
      [(None, (tt, "file:///b.sol")); (Some 7, (tt, "file:///c.sol"))] [here]
    = Some (res, reads) /\
    [here] `prefix_of` res.
Proof.
  cbv zeta.
  refine (collected_references_extend_output nat unit _ _ _ _ _).
  intros p n su u out. by apply prefix_app_r.
Defined.

(** X2.  A series of calls of the output-parameter [findAllReferences] on
    one vector is the series of calls of the overload that takes the name,
    made for the non-null pointers only, each with the name of its own
    declaration: null targets can be left out without changing the result,
    the names read are those of the non-null targets in order, and a
    series of null targets gives [_output] back unread. *)
Theorem collected_references_skip_null :
  forall (Declaration SourceUnit : Type) (declName : Declaration -> string)
         (named_into : option Declaration -> string -> SourceUnit -> URI ->
                       list Location -> list Location)
         (targets : list (option Declaration * (SourceUnit * URI)))
         (out : list Location),
    let present := presentTargets targets in
    collectReferences declName named_into targets out
    = Some (foldl (intoStep declName named_into) out present,
            (fun t => NameRead t.1) <$> present) /\
    collectReferences declName named_into targets out
    = collectReferences declName named_into
        ((fun t => (Some t.1, t.2)) <$> present) out /\
    (forall places : list (SourceUnit * URI),
        collectReferences declName named_into
          ((fun x => (None, x)) <$> places) out
        = Some (out, [])).
Proof.
  intros D SU declName named_into targets out present.
  split; [apply collectReferences_eq|]. split.
  - rewrite !collectReferences_eq. unfold present.
    by rewrite presentTargets_idemp.
  - intros places. rewrite collectReferences_eq.
    assert (presentTargets ((fun x : SU * URI => (@None D, x)) <$> places) = [])
      as ->; [|done].
    by induction places.
Qed.

(** X3.  The results of the value-returning [findAllReferences] over a
    series of targets are the results of the overload that takes the name
    for the non-null pointers, in order: a null pointer adds no highlight
    and no read, and leaving the null targets out changes nothing. *)
Theorem collected_highlights_skip_null :
  forall (Declaration SourceUnit : Type) (declName : Declaration -> string)
         (named : option Declaration -> string -> SourceUnit ->
                  list DocumentHighlight)
         (targets : list (option Declaration * SourceUnit)),
    let present := presentTargets targets in
    collectHighlights declName named targets
    = Some (concat ((fun t => named (Some t.1) (declName t.1) t.2) <$> present),
            (fun t => NameRead t.1) <$> present) /\
    collectHighlights declName named targets
    = collectHighlights declName named
        ((fun t => (Some t.1, t.2)) <$> present) /\
    (forall units : list SourceUnit,
        collectHighlights declName named ((fun x => (None, x)) <$> units)
        = Some ([], [])).
Proof.
  intros D SU declName named targets present.
  split; [apply collectHighlights_eq|]. split.
  - rewrite !collectHighlights_eq. unfold present.
    by rewrite presentTargets_idemp.
  - intros units. rewrite collectHighlights_eq.
    assert (presentTargets ((fun x : SU => (@None D, x)) <$> units) = [])
      as ->; [|done].
    by induction units.
Qed.

(** A batch on declarations numbered by [nat]: the null entries are
    skipped, the two present ones are read in order. *)
Example collected_highlights_example :
  collectHighlights (fun d : nat => if Nat.eqb d 1 then "f" else "g")
    (fun _ n (k : DocumentHighlightKind) =>
       [{| dh_range := lineRange 0 0 0 (String.length n); dh_kind := k |}])
    [(None, Text); (Some 1, Read); (None, Write); (Some 2, Write)]
  = Some ([{| dh_range := lineRange 0 0 0 1; dh_kind := Read |};
           {| dh_range := lineRange 0 0 0 1; dh_kind := Write |}],
          [NameRead 1; NameRead 2]).
Proof. reflexivity. Qed.

Section MinimalServer.
Context {E : Type}.
Variable init : URI -> list WorkspaceFolder -> Hook E ServerId.

Lemma virtualCall_default c e :
  isInitializeCall c = false ->
  virtualCall (Server_vtable init) c e = (Ok (emptyResult c), e, []).
Proof. destruct c; intros Hc; try discriminate Hc; reflexivity. Qed.

Lemma virtualCalls_initialize_only cs e :
  let all := virtualCalls (Server_vtable init) cs e in
  let only := virtualCalls (Server_vtable init)
                (List.filter isInitializeCall cs) e in
  all.1.2 = only.1.2 /\ all.2 = only.2.
Proof.
  revert e. induction cs as [|c cs IH]; intros e; [done|].
  cbn [List.filter]. destruct (isInitializeCall c) eqn:Hc.
  - cbn [virtualCalls]. cbv zeta. cbn [fst snd].
    destruct (IH (virtualCall (Server_vtable init) c e).1.2) as [-> ->]. done.
  - cbn [virtualCalls]. cbv zeta. rewrite (virtualCall_default c e Hc).
    cbn [fst snd app]. apply IH.
Qed.

Lemma virtualCalls_default_results cs e i c :
  cs !! i = Some c -> isInitializeCall c = false ->
  (virtualCalls (Server_vtable init) cs e).1.1 !! i = Some (Ok (emptyResult c)).
Proof.
  revert e i. induction cs as [|c0 cs IH]; intros e i Hi Hc; [done|].
  cbn [virtualCalls]. cbv zeta. cbn [fst snd]. destruct i as [|i].
  - injection Hi as ->. cbn. by rewrite (virtualCall_default c e Hc).
  - cbn. by apply IH.
Qed.
End MinimalServer.

(** X4.  On an object of a class that derives from [Server] and overrides
    only [initialize], any series of virtual calls leaves the object and
    the outbound calls exactly as the [initialize] calls of the series
    alone would, and every other call of the series completes with the
    empty value of its return type: the inherited hooks are neutral in
    every order and at every place of the series. *)
Theorem minimal_server_calls :
  forall (E : Type) (init : URI -> list WorkspaceFolder -> Hook E ServerId)
         (cs : list VirtualCall) (e : E),
    let all := virtualCalls (Server_vtable init) cs e in
    let only := virtualCalls (Server_vtable init)
                  (List.filter isInitializeCall cs) e in
    all.1.2 = only.1.2 /\ all.2 = only.2 /\
    length all.1.1 = length cs /\
    (forall i c, cs !! i = Some c -> isInitializeCall c = false ->
                 all.1.1 !! i = Some (Ok (emptyResult c))).
Proof.
  intros E init cs e all only.
  destruct (virtualCalls_initialize_only init cs e) as [H1 H2].
  split; [done|]. split; [done|]. split.
  - unfold all. clear. revert e. induction cs as [|c cs IH]; intros e; [done|].
    cbn. by rewrite IH.
  - intros i c. apply virtualCalls_default_results.
Qed.

(** A class whose [initialize] stores the root URI and logs it: documents
    are opened, queried and closed around two [initialize] calls. *)
Example minimal_server_example :
  let init := fun (u : URI) (_ : list WorkspaceFolder) (e : list URI) =>
                (Ok {| serverName := "m"; serverVersion := "0" |},
                 e ++ [u], [CallLog u]) in
  let pos := {| dp_uri := "file:///a.sol";
                dp_position := {| line := 0; character := 0 |} |} in
  virtualCalls (Server_vtable init)
    [ Call_documentOpened "file:///a.sol" "solidity" 1 "a";
      Call_initialize "file:///r1" [];
      Call_references pos;
      Call_documentClosed "file:///a.sol";
      Call_initialize "file:///r2" [] ] []
  = ([ Ok GaveNothing;
       Ok (GaveServerId {| serverName := "m"; serverVersion := "0" |});
       Ok (GaveLocations []);
       Ok GaveNothing;
       Ok (GaveServerId {| serverName := "m"; serverVersion := "0" |}) ],
     ["file:///r1"; "file:///r2"],
     [CallLog "file:///r1"; CallLog "file:///r2"]).
Proof. reflexivity. Qed.

(** X5.  The underlying values of the four enumerations are pairwise
    distinct within each enumeration and fill an interval without gaps:
    0..2 for [Trace], 0..3 for [DocumentHighlightKind], 1..4 for
    [DiagnosticSeverity] and 1..2 for [DiagnosticTag]; they increase in
    the order of declaration; an enumerator has the value zero exactly
    when it is [Off], respectively [Unspecified], and no severity and no
    tag has the value zero. *)
Theorem enumerator_values :
  (Inj (=) (=) Trace_value /\
   (forall n, (0 <= n <= 2)%Z <-> exists t, Trace_value t = n) /\
   (Trace_value Off < Trace_value Messages < Trace_value Verbose)%Z /\
   (forall t, Trace_value t = 0%Z <-> t = Off)) /\
  (Inj (=) (=) DocumentHighlightKind_value /\
   (forall n, (0 <= n <= 3)%Z <-> exists k, DocumentHighlightKind_value k = n) /\
   (DocumentHighlightKind_value Unspecified < DocumentHighlightKind_value Text
    < DocumentHighlightKind_value Read)%Z /\
   (DocumentHighlightKind_value Read < DocumentHighlightKind_value Write)%Z /\
   (forall k, DocumentHighlightKind_value k = 0%Z <-> k = Unspecified)) /\
  (Inj (=) (=) DiagnosticSeverity_value /\
   (forall n, (1 <= n <= 4)%Z <-> exists s, DiagnosticSeverity_value s = n) /\
   (DiagnosticSeverity_value Error < DiagnosticSeverity_value Warning
    < DiagnosticSeverity_value Information)%Z /\
   (DiagnosticSeverity_value Information < DiagnosticSeverity_value Hint)%Z /\
   (forall s, DiagnosticSeverity_value s <> 0%Z)) /\
  (Inj (=) (=) DiagnosticTag_value /\
   (forall n, (1 <= n <= 2)%Z <-> exists t, DiagnosticTag_value t = n) /\
   (DiagnosticTag_value Unnecessary < DiagnosticTag_value Deprecated)%Z /\
   (forall t, DiagnosticTag_value t <> 0%Z)).
Proof.
  assert (forall (A : Type) (f : A -> Z),
             (forall a b, f a = f b -> a = b) -> Inj (=) (=) f) as Hinj.
  { intros A f Hf a b. apply Hf. }
  split; [|split; [|split]].
  - split; [apply Hinj; intros [] []; cbn; congruence|].
    split; [|split; [cbn; lia | intros []; cbn; split; congruence]].
    intros n. split; [intros Hn | intros [[] <-]; cbn; lia].
    assert (n = 0 \/ n = 1 \/ n = 2)%Z as Hc by lia.
    destruct Hc as [-> | [-> | ->]];
      [by exists Off | by exists Messages | by exists Verbose].
  - split; [apply Hinj; intros [] []; cbn; congruence|].
    split;
      [|split; [cbn; lia | split; [cbn; lia | intros []; cbn; split; congruence]]].
    intros n. split; [intros Hn | intros [[] <-]; cbn; lia].
    assert (n = 0 \/ n = 1 \/ n = 2 \/ n = 3)%Z as Hc by lia.
    destruct Hc as [-> | [-> | [-> | ->]]];
      [by exists Unspecified | by exists Text | by exists Read
      | by exists Write].
  - split; [apply Hinj; intros [] []; cbn; congruence|].
    split; [|split; [cbn; lia | split; [cbn; lia | intros []; cbn; lia]]].
    intros n. split; [intros Hn | intros [[] <-]; cbn; lia].
    assert (n = 1 \/ n = 2 \/ n = 3 \/ n = 4)%Z as Hc by lia.
    destruct Hc as [-> | [-> | [-> | ->]]];
      [by exists Error | by exists Warning | by exists Information
      | by exists Hint].
  - split; [apply Hinj; intros [] []; cbn; congruence|].
    split; [|split; [cbn; lia | intros []; cbn; lia]].
    intros n. split; [intros Hn | intros [[] <-]; cbn; lia].
    assert (n = 1 \/ n = 2)%Z as Hc by lia.
    destruct Hc as [-> | ->]; [by exists Unnecessary | by exists Deprecated].
Qed.
